(** * The [APIList] model of [models/api_list.py]

    A shallow embedding of the SQLAlchemy model class [APIList]: the column
    declarations with their defaults (evaluated when the class body runs),
    the constructor [__init__], and the two class methods [get_by_api_key]
    and [create_api_entry], over an explicit model of the Python process
    (environment, clock, object heap) and of the persistence session. *)

From Stdlib Require Import Ascii.
From stdpp Require Import base numbers strings list gmap.

(** ** Python values *)

(** The values that occur as attributes and keyword arguments of the model:
    [None], integers, strings and datetimes (seconds on the UTC time line).
    A string is given by the bytes of its UTF-8 encoding. *)
Inductive PyVal : Type :=
  | VNone
  | VInt (n : Z)
  | VStr (s : string)
  | VTime (t : Z).

#[global] Instance PyVal_eq_dec : EqDecision PyVal.
Proof. solve_decision. Defined.

(** Truth value of an object, as tested by [or]. *)
Definition truthy (v : PyVal) : bool :=
  match v with
  | VNone => false
  | VInt n => negb (n =? 0)%Z
  | VStr s => negb (String.eqb s "")
  | VTime _ => true
  end.

(** An optional argument whose default is [None]. *)
Definition opt_int (o : option Z) : PyVal :=
  match o with Some n => VInt n | None => VNone end.

Definition opt_str (o : option string) : PyVal :=
  match o with Some s => VStr s | None => VNone end.

(** ** Characters *)

Definition bytes_of (s : string) : list N :=
  N_of_ascii <$> String.list_ascii_of_string s.

(** The string with the given bytes. *)
Definition string_of_bytes (bs : list N) : string :=
  String.string_of_list_ascii (ascii_of_N <$> bs).

Definition is_continuation (b : N) : bool := (128 <=? b)%N && (b <? 192)%N.

(** The code points of a byte sequence read as UTF-8; [None] stands for a
    byte that begins no well-formed sequence (overlong forms, surrogates
    and values above 10FFFF are not well formed). *)
Fixpoint utf8_decode (bs : list N) : list (option N) :=
  match bs with
  | [] => []
  | b :: rest =>
      if (b <? 128)%N then Some b :: utf8_decode rest
      else
        let bad := None :: utf8_decode rest in
        match rest with
        | c1 :: rest1 =>
            if negb (is_continuation c1) then bad
            else if (192 <=? b)%N && (b <? 224)%N then
              let cp := ((b - 192) * 64 + (c1 - 128))%N in
              if (128 <=? cp)%N then Some cp :: utf8_decode rest1 else bad
            else
              match rest1 with
              | c2 :: rest2 =>
                  if negb (is_continuation c2) then bad
                  else if (224 <=? b)%N && (b <? 240)%N then
                    let cp := ((b - 224) * 4096 + (c1 - 128) * 64 + (c2 - 128))%N in
                    if (2048 <=? cp)%N && negb ((55296 <=? cp)%N && (cp <? 57344)%N)
                    then Some cp :: utf8_decode rest2 else bad
                  else
                    match rest2 with
                    | c3 :: rest3 =>
                        if negb (is_continuation c3) then bad
                        else if (240 <=? b)%N && (b <? 248)%N then
                          let cp := ((b - 240) * 262144 + (c1 - 128) * 4096
                                     + (c2 - 128) * 64 + (c3 - 128))%N in
                          if (65536 <=? cp)%N && (cp <? 1114112)%N
                          then Some cp :: utf8_decode rest3 else bad
                        else bad
                    | [] => bad
                    end
              | [] => bad
              end
        | [] => bad
        end
  end.

(** The white space of [str.isspace] above the ASCII range. *)
Definition unicode_spaces : list N :=
  [133; 160; 5760; 8192; 8193; 8194; 8195; 8196; 8197; 8198; 8199; 8200;
   8201; 8202; 8232; 8233; 8239; 8287; 12288]%N.

(** The decimal digits above the ASCII range (Unicode 14.0): the code point
    of each digit zero; the digits one to nine follow it. *)
Definition unicode_zeros : list N :=
  [1632; 1776; 1984; 2406; 2534; 2662; 2790; 2918; 3046; 3174; 3302; 3430;
   3558; 3664; 3792; 3872; 4160; 4240; 6112; 6160; 6470; 6608; 6784; 6800;
   6992; 7088; 7232; 7248; 42528; 43216; 43264; 43472; 43504; 43600; 44016;
   65296; 66720; 68912; 69734; 69872; 69942; 70096; 70384; 70736; 70864;
   71248; 71360; 71472; 71904; 72016; 72784; 73040; 73120; 92768; 92864;
   93008; 120782; 120792; 120802; 120812; 120822; 123200; 123632; 125264;
   130032]%N.

Definition unicode_decimal (cp : N) : option N :=
  (λ z, (cp - z)%N) <$> List.find (λ z, (z <=? cp)%N && (cp <? z + 10)%N) unicode_zeros.

(** ** [int(str)]

    The conversion of the interpreter (CPython 3.11).  A string with a
    character outside ASCII is first rewritten: its white space becomes a
    space, its decimal digits become ASCII digits and any other character
    above the ASCII range a question mark.  The result is read in base 10:
    ASCII white space around it is dropped, one sign is allowed, single
    underscores may separate digits, and more than 4300 digits are
    refused. *)

Definition to_ascii (c : option N) : N :=
  match c with
  | None => 63
  | Some cp =>
      if (cp <? 127)%N then cp
      else if bool_decide (cp ∈ unicode_spaces) then 32
      else match unicode_decimal cp with
           | Some d => (48 + d)%N
           | None => 63
           end
  end.

Definition transform (bs : list N) : list N :=
  if forallb (λ b, (b <? 128)%N) bs then bs
  else to_ascii <$> utf8_decode bs.

Definition is_space (c : N) : bool :=
  ((9 <=? c)%N && (c <=? 13)%N) || (c =? 32)%N.

Definition digit_of (c : N) : option Z :=
  if (48 <=? c)%N && (c <=? 57)%N then Some (Z.of_N c - 48)%Z else None.

Fixpoint lstrip (cs : list N) : list N :=
  match cs with
  | c :: cs' => if is_space c then lstrip cs' else cs
  | [] => []
  end.

Definition strip (cs : list N) : list N :=
  reverse (lstrip (reverse (lstrip cs))).

(** [after_digit] tells whether the previous character was a digit: an
    underscore is accepted only there, and the literal must not end on one;
    [count] is the number of digits read. *)
Fixpoint int_digits (acc : Z) (count : nat) (after_digit : bool) (cs : list N)
  : option Z :=
  match cs with
  | [] => if after_digit && (count <=? 4300) then Some acc else None
  | c :: cs' =>
      match digit_of c with
      | Some d => int_digits (10 * acc + d)%Z (S count) true cs'
      | None =>
          if (c =? 95)%N && after_digit then int_digits acc count false cs'
          else None
      end
  end.

Definition py_int (s : string) : option Z :=
  match strip (transform (bytes_of s)) with
  | c :: cs =>
      if (c =? 45)%N then Z.opp <$> int_digits 0 0 false cs
      else if (c =? 43)%N then int_digits 0 0 false cs
      else int_digits 0 0 false (c :: cs)
  | [] => None
  end.

(** ** Exceptions *)

(** The constraint a rejected INSERT violates. *)
Inductive Violation : Type :=
  | NotNullViolation (column : string)
  | PrimaryKeyViolation
  | UniqueViolation (column : string)
  | ForeignKeyViolation (column : string).

Inductive Exc : Type :=
  | ValueError                       (* [int] of a malformed literal *)
  | TypeError                        (* bad argument type or keyword *)
  | DataError (column : string)      (* value the column cannot hold *)
  | IntegrityError (v : Violation)   (* constraint violation at flush *)
  | InvalidRequestError              (* instance unknown to the session *)
  | PendingRollbackError.            (* session whose flush has failed *)

#[global] Instance Violation_eq_dec : EqDecision Violation.
Proof. solve_decision. Defined.

#[global] Instance Exc_eq_dec : EqDecision Exc.
Proof. solve_decision. Defined.

(** ** The mapped class *)

(** An instance of [APIList], and equally a row of the table [api_list]:
    one attribute per declared column, [VNone] for an attribute that is
    unset (on an instance) or NULL (in a row). *)
Record APIList : Type := mkAPIList {
  id : PyVal;
  label : PyVal;
  main_table_user_id : PyVal;
  api_key : PyVal;
  instructions : PyVal;
  created_at : PyVal;
  last_used_at : PyVal;
  total_tokens : PyVal;
  tokens_used : PyVal;
  tokens_remaining : PyVal;
  token_limit_per_day : PyVal
}.

#[global] Instance APIList_eq_dec : EqDecision APIList.
Proof. solve_decision. Defined.

Definition columns : list string :=
  ["id"; "label"; "main_table_user_id"; "api_key"; "instructions";
   "created_at"; "last_used_at"; "total_tokens"; "tokens_used";
   "tokens_remaining"; "token_limit_per_day"].

(** The declared column types. *)
Inductive ColType : Type :=
  | ColInteger
  | ColString (length : option nat)
  | ColText
  | ColDateTime.

(** What the class body leaves behind: the [default=] arguments of the
    columns are ordinary expressions, evaluated once, when the class
    statement is executed.  That of [created_at] is a datetime and that of
    [tokens_used] the integer literal; those of [total_tokens] and
    [tokens_remaining] are what [os.getenv] has returned, a string or the
    integer 50000. *)
Record Class : Type := mkClass {
  created_at_default : Z;
  total_tokens_default : PyVal;
  tokens_used_default : Z;
  tokens_remaining_default : PyVal
}.

(** ** The persistence session and the process

    The session is the collaborator the methods are handed: the table
    [api_list] with the constraints and types the column declarations
    state, a primary-key sequence, the instances added but not yet
    flushed, and the state of its transaction.  It flushes before a query
    and refuses to work after a flush has failed, until it is rolled
    back. *)

(** The points on which database backends differ. *)
Record Backend : Type := mkBackend {
  (* is the length of [String(64)] enforced? *)
  enforce_varchar : bool;
  (* are foreign keys enforced? *)
  enforce_fk : bool;
  (* the largest value of an INTEGER column; the least is its opposite
     minus one *)
  integer_max : Z;
  (* what is stored for a value whose Python type is not the one of the
     column, if anything *)
  coerce : ColType → PyVal → option PyVal;
  (* the next value of the sequence once a transaction has been rolled
     back, from the rows that remain and the value that had been reached *)
  sequence_after_failure : list APIList → Z → Z
}.

(** References to Python objects are indices into the heap. *)
Abbreviation loc := nat.

Record Session : Type := mkSession {
  backend : Backend;
  api_list : list APIList;    (* rows of table api_list, as the session sees them *)
  users : gset Z;             (* primary keys of table users *)
  next_id : Z;                (* next value of the primary-key sequence *)
  new : list loc;             (* pending instances, in order of [add] *)
  durable : nat;              (* how many of the rows are committed *)
  inactive : bool             (* a flush has failed and [rollback] was not called *)
}.

(** The calls a session receives, for the trace (ghost state). *)
Inductive Call : Type :=
  | CallQuery
  | CallAdd (l : loc)
  | CallCommit
  | CallRefresh (l : loc).

Record World : Type := mkWorld {
  environ : gmap string string;   (* os.environ *)
  clock : Z;                      (* current UTC time *)
  heap : list APIList;            (* the instances allocated so far *)
  db : Session;                   (* the session handed to the methods *)
  trace : list Call               (* session calls so far, oldest first *)
}.

Definition set_environ (f : gmap string string → gmap string string) (w : World) : World :=
  mkWorld (f (environ w)) (clock w) (heap w) (db w) (trace w).

Definition set_heap (f : list APIList → list APIList) (w : World) : World :=
  mkWorld (environ w) (clock w) (f (heap w)) (db w) (trace w).

Definition set_db (f : Session → Session) (w : World) : World :=
  mkWorld (environ w) (clock w) (heap w) (f (db w)) (trace w).

Definition log_call (c : Call) (w : World) : World :=
  mkWorld (environ w) (clock w) (heap w) (db w) (trace w ++ [c]).

(** ** A state and exception monad *)

Inductive Outcome (A : Type) : Type :=
  | Returned (a : A) (w : World)
  | Raised (e : Exc) (w : World).
Arguments Returned {A} a w.
Arguments Raised {A} e w.

Definition M (A : Type) : Type := World → Outcome A.

Definition ret {A} (a : A) : M A := λ w, Returned a w.

Definition raise {A} (e : Exc) : M A := λ w, Raised e w.

Definition bind {A B} (c : M A) (k : A → M B) : M B :=
  λ w, match c w with
       | Returned a w' => k a w'
       | Raised e w' => Raised e w'
       end.

Notation "'let!' x ':=' c 'in' k" := (bind c (λ x, k))
  (at level 10, x pattern, c at level 100, k at level 200).
Notation "c ';;' k" := (bind c (λ _, k))
  (at level 100, k at level 200, right associativity).

(** ** Builtins *)

(** [os.getenv(key, default)] *)
Definition os_getenv (key : string) (default : PyVal) : M PyVal :=
  λ w, Returned (match environ w !! key with
                 | Some v => VStr v
                 | None => default
                 end) w.

(** [int(v)] *)
Definition int (v : PyVal) : M PyVal :=
  match v with
  | VInt n => ret (VInt n)
  | VStr s => match py_int s with
              | Some n => ret (VInt n)
              | None => raise ValueError
              end
  | _ => raise TypeError
  end.

(** [a or b]: [b] is evaluated only when [a] is false. *)
Definition py_or (a : PyVal) (b : M PyVal) : M PyVal :=
  if truthy a then ret a else b.

(** [datetime.now(timezone.utc)] *)
Definition datetime_now_utc : M Z := λ w, Returned (clock w) w.

(** [load_dotenv()]: the variables of the [.env] file (given parsed, empty
    when there is no file) are added to the environment; a variable that is
    already set keeps its value. *)
Definition load_dotenv (dotenv : gmap string string) : M () :=
  λ w, Returned () (set_environ (λ e, e ∪ dotenv) w).

(** ** Executing the module: the class statement *)

(** [import models.api_list] runs [load_dotenv()] and then the class body;
    each [default=] expression is evaluated here, once, in source order. *)
Definition import_api_list (dotenv : gmap string string) : M Class :=
  load_dotenv dotenv ;;
  let! created := datetime_now_utc in
  let! total := os_getenv "FREE_TOKENS" (VInt 50000) in
  let! remaining := os_getenv "FREE_TOKENS" (VInt 50000) in
  ret (mkClass created total 0 remaining).

(** ** Construction *)

Definition alloc (o : APIList) : M loc :=
  λ w, Returned (length (heap w)) (set_heap (λ h, h ++ [o]) w).

(** Modelled from the spec: [Base], imported from [models/__init__.py], is
    not among the sources.  Its constructor is taken to be the declarative
    one, by which the spec's construction rule initialises a record from
    the supplied values: every keyword must name an attribute of the class
    (here: a column) and is assigned to it; the other attributes stay
    unset. *)
Definition Base_init (kwargs : gmap string PyVal) : M loc :=
  if bool_decide (dom kwargs ⊆ list_to_set columns) then
    let attr k := default VNone (kwargs !! k) in
    alloc (mkAPIList (attr "id") (attr "label") (attr "main_table_user_id")
             (attr "api_key") (attr "instructions") (attr "created_at")
             (attr "last_used_at") (attr "total_tokens") (attr "tokens_used")
             (attr "tokens_remaining") (attr "token_limit_per_day"))
  else raise TypeError.

(** [APIList.__init__(self, **kwargs)] *)
Definition APIList_init (kwargs : gmap string PyVal) : M loc :=
  let kwargs :=
    match kwargs !! "token_limit_per_day" with
    | Some token_limit =>
        <["total_tokens" := token_limit]>
          (<["tokens_remaining" := token_limit]> kwargs)
    | None => kwargs
    end in
  Base_init kwargs.

(** ** What a column stores *)

(** A column default applies to an attribute that is unset. *)
Definition or_default (v d : PyVal) : PyVal :=
  match v with VNone => d | _ => v end.

Definition is_none (v : PyVal) : bool :=
  match v with VNone => true | _ => false end.

(** The bytes of the first [n] characters of a UTF-8 string, and the rest. *)
Fixpoint take_chars (n : nat) (cs : list ascii) : list ascii :=
  match cs with
  | [] => []
  | c :: cs' =>
      if is_continuation (N_of_ascii c) then c :: take_chars n cs'
      else match n with
           | 0 => []
           | S n' => c :: take_chars n' cs'
           end
  end.

Fixpoint drop_chars (n : nat) (cs : list ascii) : list ascii :=
  match cs with
  | [] => []
  | c :: cs' =>
      if is_continuation (N_of_ascii c) then drop_chars n cs'
      else match n with
           | 0 => cs
           | S n' => drop_chars n' cs'
           end
  end.

(** A string given for a column of at most [n] characters: it is stored as
    it is when it fits, cut to [n] characters when all that exceeds them
    is spaces, and refused otherwise. *)
Definition fit (n : nat) (s : string) : option string :=
  let cs := String.list_ascii_of_string s in
  if forallb (Ascii.eqb " ") (drop_chars n cs)
  then Some (String.string_of_list_ascii (take_chars n cs))
  else None.

Definition in_range (b : Backend) (n : Z) : bool :=
  (- integer_max b - 1 <=? n)%Z && (n <=? integer_max b)%Z.

(** The value stored in column [col] of type [t] for the Python value [v],
    or the error of the backend. *)
Definition adapt (b : Backend) (t : ColType) (col : string) (v : PyVal)
  : Exc + PyVal :=
  let other := match coerce b t v with
               | Some v' => inr v'
               | None => inl (DataError col)
               end in
  match v with
  | VNone => inr VNone
  | VInt n =>
      match t with
      | ColInteger => if in_range b n then inr (VInt n) else inl (DataError col)
      | _ => other
      end
  | VStr s =>
      match t with
      | ColString (Some n) =>
          if enforce_varchar b then
            match fit n s with
            | Some s' => inr (VStr s')
            | None => inl (DataError col)
            end
          else inr (VStr s)
      | ColString None | ColText => inr (VStr s)
      | _ => other
      end
  | VTime x =>
      match t with
      | ColDateTime => inr (VTime x)
      | _ => other
      end
  end.

Definition and_then {A B} (x : Exc + A) (k : A → Exc + B) : Exc + B :=
  match x with
  | inl e => inl e
  | inr a => k a
  end.

Notation "'try!' x ':=' c 'in' k" := (and_then c (λ x, k))
  (at level 10, x pattern, c at level 100, k at level 200).

(** The row an INSERT of instance [o] produces: the primary key comes from
    the sequence, the column defaults fill the unset attributes, and every
    value is stored as its column stores it, the columns taken in the
    order of the table. *)
Definition row_of (cls : Class) (s : Session) (o : APIList) : Exc + APIList :=
  let b := backend s in
  try! c_id := adapt b ColInteger "id" (or_default (id o) (VInt (next_id s))) in
  try! c_label := adapt b (ColString None) "label" (label o) in
  try! c_user := adapt b ColInteger "main_table_user_id" (main_table_user_id o) in
  try! c_key := adapt b (ColString (Some 64)) "api_key" (api_key o) in
  try! c_instr := adapt b ColText "instructions" (instructions o) in
  try! c_created := adapt b ColDateTime "created_at"
                      (or_default (created_at o) (VTime (created_at_default cls))) in
  try! c_last := adapt b ColDateTime "last_used_at" (last_used_at o) in
  try! c_total := adapt b ColInteger "total_tokens"
                    (or_default (total_tokens o) (total_tokens_default cls)) in
  try! c_used := adapt b ColInteger "tokens_used"
                   (or_default (tokens_used o) (VInt (tokens_used_default cls))) in
  try! c_remaining := adapt b ColInteger "tokens_remaining"
                        (or_default (tokens_remaining o)
                           (tokens_remaining_default cls)) in
  try! c_day := adapt b ColInteger "token_limit_per_day" (token_limit_per_day o) in
  inr (mkAPIList c_id c_label c_user c_key c_instr c_created c_last c_total
         c_used c_remaining c_day).

Definition references (us : gset Z) (v : PyVal) : bool :=
  match v with
  | VNone => true
  | VInt u => bool_decide (u ∈ us)
  | _ => false
  end.

(** The declared constraints, in the order in which a backend checks them:
    NOT NULL, primary key, UNIQUE, FOREIGN KEY. *)
Definition violation (s : Session) (r : APIList) : option Exc :=
  if is_none (label r)
  then Some (IntegrityError (NotNullViolation "label"))
  else if is_none (main_table_user_id r)
  then Some (IntegrityError (NotNullViolation "main_table_user_id"))
  else if is_none (api_key r)
  then Some (IntegrityError (NotNullViolation "api_key"))
  else if is_none (created_at r)
  then Some (IntegrityError (NotNullViolation "created_at"))
  else if bool_decide (id r ∈ id <$> api_list s)
  then Some (IntegrityError PrimaryKeyViolation)
  else if bool_decide (api_key r ∈ api_key <$> api_list s)
  then Some (IntegrityError (UniqueViolation "api_key"))
  else if enforce_fk (backend s) && negb (references (users s) (main_table_user_id r))
  then Some (IntegrityError (ForeignKeyViolation "main_table_user_id"))
  else None.

(** ** Session primitives *)

(** INSERT of one instance: the row is appended to the table and the
    sequence advances when it supplied the key. *)
Definition insert (cls : Class) (o : APIList) (s : Session) : Exc + APIList * Session :=
  try! r := row_of cls s o in
  match violation s r with
  | Some e => inl e
  | None =>
      inr (r, mkSession (backend s) (api_list s ++ [r]) (users s)
                (if is_none (id o) then (next_id s + 1)%Z else next_id s)
                (new s) (durable s) (inactive s))
  end.

(** An instance after its INSERT: the primary key is known. *)
Definition with_id (i : PyVal) (o : APIList) : APIList :=
  mkAPIList i (label o) (main_table_user_id o) (api_key o) (instructions o)
            (created_at o) (last_used_at o) (total_tokens o) (tokens_used o)
            (tokens_remaining o) (token_limit_per_day o).

(** The flush: the pending instances are inserted in the order in which
    they were added; each receives its primary key.  A failure comes with
    the heap and the session as they were when it happened. *)
Fixpoint flush (cls : Class) (pending : list loc) (h : list APIList) (s : Session)
  : Exc * list APIList * Session + list APIList * Session :=
  match pending with
  | [] => inr (h, s)
  | l :: pending' =>
      match h !! l with
      | None => inl (InvalidRequestError, h, s)
      | Some o =>
          match insert cls o s with
          | inl e => inl (e, h, s)
          | inr (r, s') => flush cls pending' (<[l := with_id (id r) o]> h) s'
          end
      end
  end.

(** The session a flush reaches, whether it succeeds or fails. *)
Definition flush_end (x : Exc * list APIList * Session + list APIList * Session)
  : list APIList * Session :=
  match x with
  | inl (_, h, s) => (h, s)
  | inr (h, s) => (h, s)
  end.

(** The rollback after a failed flush: the rows of the open transaction
    are gone, the pending instances are expunged, and the session stays
    inactive. *)
Definition rolled_back (s : Session) : Session :=
  let rows := take (durable s) (api_list s) in
  mkSession (backend s) rows (users s)
            (sequence_after_failure (backend s) rows (next_id s))
            [] (durable s) true.

(** A session whose flush has failed refuses to work. *)
Definition check_active : M () :=
  λ w, if inactive (db w) then Raised PendingRollbackError w else Returned () w.

(** The flush of what is pending, as [commit] and a query perform it: the
    exception of a failing flush propagates after the rollback. *)
Definition flush_pending (cls : Class) : M () :=
  λ w, match flush cls (new (db w)) (heap w) (db w) with
       | inl (e, h, s) =>
           Raised e (mkWorld (environ w) (clock w) h (rolled_back s) (trace w))
       | inr (h, s) =>
           Returned ()
             (mkWorld (environ w) (clock w) h
                (mkSession (backend s) (api_list s) (users s) (next_id s) []
                           (durable s) (inactive s))
                (trace w))
       end.

(** [db.add(obj)] *)
Definition db_add (l : loc) : M () :=
  λ w, Returned () (log_call (CallAdd l) (set_db (λ s,
         mkSession (backend s) (api_list s) (users s) (next_id s)
                   (new s ++ [l]) (durable s) (inactive s)) w)).

(** [db.commit()]: flush, then make the rows of the transaction durable. *)
Definition db_commit (cls : Class) : M () :=
  (λ w, Returned () (log_call CallCommit w)) ;;
  check_active ;;
  flush_pending cls ;;
  λ w, Returned () (set_db (λ s,
         mkSession (backend s) (api_list s) (users s) (next_id s) (new s)
                   (length (api_list s)) (inactive s)) w).

(** [db.refresh(obj)]: the attributes of the instance are loaded again
    from its row, found by primary key.  The flush with which the session
    begins a refresh is left out: the only call, in [create_api_entry],
    follows a commit, after which nothing is pending. *)
Definition db_refresh (l : loc) : M () :=
  (λ w, Returned () (log_call (CallRefresh l) w)) ;;
  check_active ;;
  λ w, match heap w !! l with
       | None => Raised InvalidRequestError w
       | Some o =>
           match head (filter (λ r, id r = id o) (api_list (db w))) with
           | Some r => Returned () (set_heap (λ h, <[l := r]> h) w)
           | None => Raised InvalidRequestError w
           end
       end.

(** [db.query(cls).filter(p).first()]: the session flushes what is
    pending, then the first row that satisfies the criterion, if any, is
    returned. *)
Definition db_query_filter_first (cls : Class) (P : APIList → Prop)
    `{∀ r, Decision (P r)} : M (option APIList) :=
  (λ w, Returned () (log_call CallQuery w)) ;;
  check_active ;;
  flush_pending cls ;;
  λ w, Returned (head (filter P (api_list (db w)))) w.

(** ** The class methods *)

(** [APIList.get_by_api_key(db, api_key)]: the criterion
    [cls.api_key == api_key] is equality of strings, byte for byte. *)
Definition get_by_api_key (cls : Class) (key : string) : M (option APIList) :=
  db_query_filter_first cls (λ r, api_key r = VStr key).

(** The free-tier default as the creation path reads it:
    [int(os.getenv("FREE_TOKENS", "1000"))]. *)
Definition free_tokens : M PyVal :=
  let! v := os_getenv "FREE_TOKENS" (VStr "1000") in int v.

(** The keyword arguments of the constructor call in [create_api_entry]. *)
Definition entry_kwargs (user_id : Z) (key : string) (instr lbl : option string)
    (limit : PyVal) : gmap string PyVal :=
  <["main_table_user_id" := VInt user_id]>
    (<["label" := opt_str lbl]>
    (<["api_key" := VStr key]>
    (<["instructions" := opt_str instr]>
    (<["token_limit_per_day" := limit]> ∅)))).

(** [APIList.create_api_entry(db, main_table_user_id, api_key,
    instructions=None, label=None, token_limit=None)] *)
Definition create_api_entry (cls : Class) (user_id : Z) (key : string)
    (instr lbl : option string) (token_limit : option Z) : M loc :=
  let! limit := py_or (opt_int token_limit) free_tokens in
  let! api_entry := APIList_init (entry_kwargs user_id key instr lbl limit) in
  db_add api_entry ;;
  db_commit cls ;;
  db_refresh api_entry ;;
  ret api_entry.

(** ** Notions used in the statements *)

(** The free-tier default of the creation path as a number: the value of
    [FREE_TOKENS] converted by [int], 1000 when the variable is unset, and
    nothing when the value is malformed. *)
Definition free_tier (e : gmap string string) : option Z :=
  match e !! "FREE_TOKENS" with
  | Some s => py_int s
  | None => Some 1000%Z
  end.

(** The limit a call resolves to, read off the code: [token_limit or ...]
    keeps a limit that is given and not zero. *)
Definition resolved_limit (token_limit : option Z) (e : gmap string string) : option Z :=
  match token_limit with
  | Some n => if (n =? 0)%Z then free_tier e else Some n
  | None => free_tier e
  end.

(** The same in the words of the specification: "the supplied
    [token_limit] if given, otherwise the environment-configured free-tier
    default". *)
Definition spec_limit (token_limit : option Z) (e : gmap string string) : option Z :=
  match token_limit with
  | Some n => Some n
  | None => free_tier e
  end.

(** The uniqueness invariant of column [api_key]. *)
Definition unique_api_keys (s : Session) : Prop :=
  NoDup (api_key <$> api_list s).

(** The primary-key sequence is ahead of every key in the table. *)
Definition sequence_ahead (s : Session) : Prop :=
  ∀ r, r ∈ api_list s → ∃ i, id r = VInt i ∧ (i < next_id s)%Z.

(** The key column [api_key] stores for a key, if it accepts it. *)
Definition stored_key (b : Backend) (key : string) : option string :=
  if enforce_varchar b then fit 64 key else Some key.

(** The integers of the row of a call are in the range of the INTEGER
    columns: the primary key the sequence gives, the owner, the limit [n]
    and the default of [tokens_used]. *)
Definition storable (cls : Class) (s : Session) (user_id n : Z) : Prop :=
  in_range (backend s) (next_id s) = true
  ∧ in_range (backend s) user_id = true
  ∧ in_range (backend s) n = true
  ∧ in_range (backend s) (tokens_used_default cls) = true.

(** The instance [create_api_entry] constructs, before it is added. *)
Definition new_entry (user_id : Z) (key : string) (instr lbl : option string)
    (limit : PyVal) : APIList :=
  mkAPIList VNone (opt_str lbl) (VInt user_id) (VStr key) (opt_str instr)
            VNone VNone limit VNone limit limit.

(** The row [create_api_entry] stores under primary key [i], with the
    limit [n] and the key as stored. *)
Definition entry_row (cls : Class) (i user_id : Z) (key : string)
    (instr lbl : option string) (n : Z) : APIList :=
  mkAPIList (VInt i) (opt_str lbl) (VInt user_id) (VStr key) (opt_str instr)
            (VTime (created_at_default cls)) VNone (VInt n)
            (VInt (tokens_used_default cls)) (VInt n) (VInt n).

Definition world_of {A} (o : Outcome A) : World :=
  match o with Returned _ w | Raised _ w => w end.

Definition map_world {A} (f : World → World) (o : Outcome A) : Outcome A :=
  match o with
  | Returned a w => Returned a (f w)
  | Raised e w => Raised e (f w)
  end.

(** Time passes. *)
Definition advance (dt : Z) (w : World) : World :=
  mkWorld (environ w) (clock w + dt) (heap w) (db w) (trace w).

#[local] Set Implicit Arguments.

(** What a returning call of [create_api_entry] has done: [n] is the limit
    it resolved, [i] the primary key the row received, [key'] the key as
    stored, [rows] the rows of the instances that were pending before the
    call. *)
Record Created (cls : Class) (user_id : Z) (key : string)
    (instr lbl : option string) (token_limit : option Z)
    (w : World) (l : loc) (w' : World)
    (n i : Z) (key' : string) (rows : list APIList) : Prop := {
  created_limit : resolved_limit token_limit (environ w) = Some n;
  created_loc : l = length (heap w);
  created_key : stored_key (backend (db w)) key = Some key';
  created_obj : heap w' !! l = Some (entry_row cls i user_id key' instr lbl n);
  created_rows :
    api_list (db w')
    = (api_list (db w) ++ rows) ++ [entry_row cls i user_id key' instr lbl n];
  created_label : is_Some lbl;
  created_ranges :
    in_range (backend (db w)) i = true
    ∧ in_range (backend (db w)) user_id = true
    ∧ in_range (backend (db w)) n = true
    ∧ in_range (backend (db w)) (tokens_used_default cls) = true;
  created_id_fresh : VInt i ∉ id <$> (api_list (db w) ++ rows);
  created_key_fresh : VStr key' ∉ api_key <$> (api_list (db w) ++ rows);
  created_owner :
    enforce_fk (backend (db w)) = true → user_id ∈ users (db w);
  created_clean : new (db w) = [] → rows = [] ∧ i = next_id (db w);
  created_next_id : next_id (db w') = (i + 1)%Z;
  created_new : new (db w') = [];
  created_durable : durable (db w') = length (api_list (db w'));
  created_active : inactive (db w) = false ∧ inactive (db w') = false;
  created_backend : backend (db w') = backend (db w);
  created_users : users (db w') = users (db w);
  created_trace : trace w' = trace w ++ [CallAdd l; CallCommit; CallRefresh l];
  created_environ : environ w' = environ w;
  created_clock : clock w' = clock w;
  created_unique : unique_api_keys (db w) → unique_api_keys (db w');
  created_pending :
    ∃ h0 s0, flush cls (new (db w)) (heap w) (db w) = inr (h0, s0)
             ∧ api_list s0 = api_list (db w) ++ rows
}.

(** What a raising call has done.  It has stored nothing; it has failed
    on the limit, before anything else happened, or on a session that was
    inactive, or in the flush of its commit, which has left the session
    inactive and nothing pending. *)
Record Failed (cls : Class) (user_id : Z) (key : string)
    (instr lbl : option string) (token_limit : option Z)
    (w : World) (e : Exc) (w' : World) : Prop := {
  failed_unique : unique_api_keys (db w) → unique_api_keys (db w');
  failed_rows :
    durable (db w) = length (api_list (db w)) →
    api_list (db w') = api_list (db w);
  failed_backend : backend (db w') = backend (db w);
  failed_users : users (db w') = users (db w);
  failed_durable : durable (db w') = durable (db w);
  failed_environ : environ w' = environ w;
  failed_clock : clock w' = clock w;
  failed_how :
    match resolved_limit token_limit (environ w) with
    | None => e = ValueError ∧ w' = w
    | Some n =>
        trace w' = trace w ++ [CallAdd (length (heap w)); CallCommit]
        ∧ length (heap w') = S (length (heap w))
        ∧ inactive (db w') = true
        ∧ if inactive (db w)
          then e = PendingRollbackError
               ∧ new (db w') = new (db w) ++ [length (heap w)]
               ∧ api_list (db w') = api_list (db w)
               ∧ next_id (db w') = next_id (db w)
          else new (db w') = []
    end
}.

#[local] Unset Implicit Arguments.

(** The process after a call whose commit has raised, from a session with
    nothing pending: the instance [o] is allocated, the transaction is
    rolled back and the session inactive. *)
Definition commit_raised (o : APIList) (w : World) : World :=
  mkWorld (environ w) (clock w) (heap w ++ [o]) (rolled_back (db w))
          (trace w ++ [CallAdd (length (heap w)); CallCommit]).

(** The process after a call that has returned, from a session with
    nothing pending: one row and one instance, equal, are appended, and
    every row is committed. *)
Definition committed (r : APIList) (w : World) : World :=
  mkWorld (environ w) (clock w) (heap w ++ [r])
          (mkSession (backend (db w)) (api_list (db w) ++ [r]) (users (db w))
                     (next_id (db w) + 1) []
                     (length (api_list (db w) ++ [r])) false)
          (trace w ++ [CallAdd (length (heap w)); CallCommit;
                       CallRefresh (length (heap w))]).

(** ** A concrete process *)

(** The value of a string of ASCII digits. *)
Definition plain_decimal (s : string) : option Z :=
  match bytes_of s with
  | [] => None
  | bs => foldl (λ acc b, a ← acc; d ← digit_of b; Some (10 * a + d)%Z) (Some 0%Z) bs
  end.

(** A backend that enforces everything: INTEGER columns of 32 bits, which
    accept a string of digits, no other conversion, and a sequence that a
    rejected INSERT has consumed. *)
Definition strict : Backend :=
  mkBackend true true 2147483647
    (λ t v, match t, v with
            | ColInteger, VStr s => VInt <$> plain_decimal s
            | _, _ => None
            end)
    (λ _ reached, (reached + 1)%Z).

(** A store with user 1 and no keys, and a process without [FREE_TOKENS],
    before and after the import. *)
Definition store0 : Session := mkSession strict [] {[1%Z]} 1 [] 0 false.

Definition boot : World := mkWorld ∅ 1700000000 [] store0 [].

Definition cls0 : Class :=
  mkClass 1700000000 (VInt 50000) 0 (VInt 50000).

(** The first key is issued, with the default budget. *)
Definition world1 : World :=
  world_of (create_api_entry cls0 1 "abc123" None (Some "mine") None boot).

(** An hour later. *)
Definition world2 : World := advance 3600 world1.

(** A second key, with an explicit limit. *)
Definition world3 : World :=
  world_of (create_api_entry cls0 1 "def456" (Some "be brief") (Some "other")
              (Some 5000%Z) world2).

(** The process with a [FREE_TOKENS] that is no number. *)
Definition boot_malformed : World :=
  set_environ (λ e, <["FREE_TOKENS" := "plenty"]> e) boot.

(** A [.env] file that sets the free-tier default. *)
Definition dotenv_2500 : gmap string string := {["FREE_TOKENS" := "2500"]}.

(** Keyword arguments with and without the daily limit. *)
Definition kwargs_with_limit : gmap string PyVal :=
  {["total_tokens" := VInt 500; "tokens_remaining" := VInt 400;
    "token_limit_per_day" := VInt 100]}.

Definition kwargs_without_limit : gmap string PyVal :=
  {["total_tokens" := VInt 500; "api_key" := VStr "abc123"]}.

(** The process after the call that omits the label has raised. *)
Definition world_failed : World :=
  world_of (create_api_entry cls0 1 "abc123" None None None boot).

(** A key of 64 characters followed by a space. *)
Definition padded_key : string :=
  "k123456789abcdef0123456789abcdef0123456789abcdef0123456789abcdef ".

(** A key of 65 characters that does not end in a space. *)
Definition long_key : string :=
  "k123456789abcdef0123456789abcdef0123456789abcdef0123456789abcdefX".

(** The process in which other code has added an instance to the session
    and has not committed. *)
Definition world_pending : World :=
  world_of ((let! l := APIList_init
                         (entry_kwargs 1 "abc123" None (Some "mine") (VInt 1000)) in
             db_add l) boot).

(** * Properties *)

(** ** [int] on strings *)

Example py_int_1000 : py_int "1000" = Some 1000%Z.
Proof. reflexivity. Qed.

Example py_int_spaces_sign : py_int "  -1_000 " = Some (-1000)%Z.
Proof. reflexivity. Qed.

Example py_int_malformed :
  py_int "" = None ∧ py_int "12a" = None ∧ py_int "1__0" = None
  ∧ py_int "_1" = None ∧ py_int "1_" = None ∧ py_int "- 1" = None.
Proof. repeat split; reflexivity. Qed.

(** Only the ASCII whitespace is stripped from an ASCII string: a leading
    file separator (byte 28) makes the string malformed. *)
Example py_int_file_separator :
  py_int (string_of_bytes [28; 53]%N) = None
  ∧ py_int (string_of_bytes [32; 53; 11]%N) = Some 5%Z.
Proof. split; reflexivity. Qed.

(** Decimal digits and whitespace of other scripts are accepted: ARABIC-INDIC
    DIGIT FIVE, FULLWIDTH DIGIT FIVE, a digit followed by NEXT LINE, a
    signed and a grouped number; SUPERSCRIPT TWO is no decimal digit, and
    bytes that are not UTF-8 are rejected. *)
Example py_int_unicode :
  py_int (string_of_bytes [217; 165]%N) = Some 5%Z
  ∧ py_int (string_of_bytes [239; 188; 149]%N) = Some 5%Z
  ∧ py_int (string_of_bytes [53; 194; 133]%N) = Some 5%Z
  ∧ py_int (string_of_bytes [45; 217; 165]%N) = Some (-5)%Z
  ∧ py_int (string_of_bytes [217; 165; 95; 217; 166]%N) = Some 56%Z
  ∧ py_int (string_of_bytes [194; 178]%N) = None
  ∧ py_int (string_of_bytes [255; 53]%N) = None.
Proof. repeat split; reflexivity. Qed.

(** The limit on the number of digits. *)
Example py_int_max_digits :
  py_int (string_of_bytes (replicate 4300 48%N)) = Some 0%Z
  ∧ py_int (string_of_bytes (replicate 4301 48%N)) = None.
Proof. split; vm_compute; reflexivity. Qed.

(** ** Lists *)

Section lists.
Context {A : Type} (P : A → Prop) `{∀ x, Decision (P x)}.

Lemma head_filter_app_fresh (l : list A) (x : A) :
  (∀ y, y ∈ l → ¬ P y) → P x → head (filter P (l ++ [x])) = Some x.
Proof.
  intros Hl Hx. rewrite filter_app.
  replace (filter P l) with (@nil A).
  - simpl. by rewrite filter_cons_True.
  - symmetry. induction l as [|y l IH]; [done|].
    rewrite filter_cons_False by (apply Hl; left).
    apply IH. intros z Hz. apply Hl. by right.
Qed.

Lemma head_filter_Some (l : list A) x :
  head (filter P l) = Some x → x ∈ l ∧ P x.
Proof.
  intros Hh. apply head_Some_elem_of in Hh.
  by apply list_elem_of_filter in Hh as [? ?].
Qed.

Lemma head_filter_None (l : list A) :
  head (filter P l) = None ↔ ∀ x, x ∈ l → ¬ P x.
Proof.
  rewrite head_None. split.
  - intros Hnil x Hx HP.
    assert (x ∈ filter P l) as Hin by (by apply list_elem_of_filter).
    rewrite Hnil in Hin. by apply not_elem_of_nil in Hin.
  - intros Hall. induction l as [|y l IH]; [done|].
    rewrite filter_cons_False by (apply Hall; left).
    apply IH. intros x Hx. apply Hall. by right.
Qed.
End lists.

Lemma NoDup_fmap_eq {A B} (f : A → B) (l : list A) x y :
  NoDup (f <$> l) → x ∈ l → y ∈ l → f x = f y → x = y.
Proof.
  induction l as [|z l IH]; simpl; [by intros _ ?%not_elem_of_nil|].
  intros [Hz Hnd]%NoDup_cons [->|Hx]%elem_of_cons [->|Hy]%elem_of_cons Heq.
  - done.
  - exfalso. apply Hz. rewrite Heq. by apply list_elem_of_fmap_2.
  - exfalso. apply Hz. rewrite <- Heq. by apply list_elem_of_fmap_2.
  - by apply IH.
Qed.

(** ** The free-tier default and the resolved limit *)

Lemma free_tokens_eq w :
  free_tokens w = match free_tier (environ w) with
                  | Some n => Returned (VInt n) w
                  | None => Raised ValueError w
                  end.
Proof.
  unfold free_tokens, free_tier, bind, os_getenv.
  destruct (environ w !! "FREE_TOKENS") as [s|]; simpl; [|done].
  by destruct (py_int s).
Qed.

Lemma py_or_free_tokens_eq token_limit w :
  py_or (opt_int token_limit) free_tokens w
  = match resolved_limit token_limit (environ w) with
    | Some n => Returned (VInt n) w
    | None => Raised ValueError w
    end.
Proof.
  unfold py_or, resolved_limit.
  destruct token_limit as [n|]; simpl; [|apply free_tokens_eq].
  destruct (n =? 0)%Z; simpl; [apply free_tokens_eq|done].
Qed.

(** When the variable is set, the creation path converts it and the class
    body keeps the string. *)
Lemma free_tokens_set s w :
  environ w !! "FREE_TOKENS" = Some s →
  free_tokens w = match py_int s with
                  | Some n => Returned (VInt n) w
                  | None => Raised ValueError w
                  end.
Proof. intros He. rewrite free_tokens_eq. unfold free_tier. by rewrite He. Qed.

(** ** The class statement *)

Lemma import_api_list_eq dotenv w :
  import_api_list dotenv w
  = let w' := set_environ (λ e, e ∪ dotenv) w in
    let free := match environ w' !! "FREE_TOKENS" with
                | Some v => VStr v
                | None => VInt 50000
                end in
    Returned (mkClass (clock w) free 0 free) w'.
Proof. reflexivity. Qed.

Lemma import_api_list_defaults dotenv w cls w' :
  import_api_list dotenv w = Returned cls w' →
  created_at_default cls = clock w ∧ tokens_used_default cls = 0%Z.
Proof. rewrite import_api_list_eq. by intros [= <- <-]. Qed.

Lemma import_free_tokens_set dotenv s w cls w' :
  (environ w ∪ dotenv) !! "FREE_TOKENS" = Some s →
  import_api_list dotenv w = Returned cls w' →
  total_tokens_default cls = VStr s ∧ tokens_remaining_default cls = VStr s.
Proof.
  intros He. rewrite import_api_list_eq. simpl. rewrite He.
  by intros [= <- <-].
Qed.

Lemma import_boot : import_api_list ∅ boot = Returned cls0 boot.
Proof. reflexivity. Qed.

(** ** The constructor *)

(** The construction rule of [__init__]: a supplied daily limit is also the
    total and the remaining budget, whatever else was passed for them. *)
Lemma APIList_init_limit kwargs v w l w' :
  kwargs !! "token_limit_per_day" = Some v →
  APIList_init kwargs w = Returned l w' →
  ∃ o, heap w' !! l = Some o
       ∧ token_limit_per_day o = v ∧ total_tokens o = v ∧ tokens_remaining o = v.
Proof.
  intros Hk. unfold APIList_init, Base_init. rewrite Hk.
  case_bool_decide; [|done]. unfold alloc. intros [= <- <-]. simpl.
  eexists. split; [by apply list_lookup_middle|]. simpl.
  split_and!; by simplify_map_eq.
Qed.

(** Without the keyword, the constructor leaves the three counters alone. *)
Lemma APIList_init_no_limit kwargs w l w' :
  kwargs !! "token_limit_per_day" = None →
  APIList_init kwargs w = Returned l w' →
  ∃ o, heap w' !! l = Some o
       ∧ token_limit_per_day o = VNone
       ∧ total_tokens o = default VNone (kwargs !! "total_tokens")
       ∧ tokens_remaining o = default VNone (kwargs !! "tokens_remaining").
Proof.
  intros Hk. unfold APIList_init, Base_init. rewrite Hk.
  case_bool_decide; [|done]. unfold alloc. intros [= <- <-]. simpl.
  eexists. split; [by apply list_lookup_middle|]. simpl. by rewrite Hk.
Qed.

(** The constructor call of [create_api_entry] allocates [new_entry]. *)
Lemma APIList_init_entry user_id key instr lbl limit w :
  APIList_init (entry_kwargs user_id key instr lbl limit) w
  = alloc (new_entry user_id key instr lbl limit) w.
Proof. vm_compute. reflexivity. Qed.

(** ** What the columns store *)

Lemma adapt_integer_eq b col n :
  adapt b ColInteger col (VInt n)
  = if in_range b n then inr (VInt n) else inl (DataError col).
Proof. reflexivity. Qed.

Lemma adapt_key_eq b col key :
  adapt b (ColString (Some 64)) col (VStr key)
  = match stored_key b key with
    | Some key' => inr (VStr key')
    | None => inl (DataError col)
    end.
Proof. unfold adapt, stored_key. by destruct (enforce_varchar b). Qed.

Lemma adapt_opt_str b col o :
  adapt b (ColString None) col (opt_str o) = inr (opt_str o)
  ∧ adapt b ColText col (opt_str o) = inr (opt_str o).
Proof. by destruct o. Qed.

Lemma take_chars_all n cs : length cs ≤ n → take_chars n cs = cs.
Proof.
  revert n. induction cs as [|c cs IH]; intros n Hn; simpl in *; [done|].
  destruct (is_continuation _).
  - f_equal. apply IH. lia.
  - destruct n as [|n]; [lia|]. f_equal. apply IH. lia.
Qed.

Lemma drop_chars_all n cs : length cs ≤ n → drop_chars n cs = [].
Proof.
  revert n. induction cs as [|c cs IH]; intros n Hn; simpl in *; [done|].
  destruct (is_continuation _).
  - apply IH. lia.
  - destruct n as [|n]; [lia|]. apply IH. lia.
Qed.

Lemma length_list_ascii_of_string s :
  length (String.list_ascii_of_string s) = String.length s.
Proof. induction s as [|c s IH]; simpl; [done|]. by rewrite IH. Qed.

(** A key of at most 64 bytes is stored as it is. *)
Lemma stored_key_short b key :
  String.length key ≤ 64 → stored_key b key = Some key.
Proof.
  intros Hlen. unfold stored_key, fit. destruct (enforce_varchar b); [|done].
  rewrite drop_chars_all, take_chars_all
    by (by rewrite length_list_ascii_of_string).
  simpl. by rewrite String.string_of_list_ascii_of_string.
Qed.

(** The row of the instance [create_api_entry] constructs. *)
Lemma row_of_entry cls s user_id key instr lbl n :
  row_of cls s (new_entry user_id key instr lbl (VInt n))
  = let b := backend s in
    if negb (in_range b (next_id s)) then inl (DataError "id")
    else if negb (in_range b user_id) then inl (DataError "main_table_user_id")
    else match stored_key b key with
    | None => inl (DataError "api_key")
    | Some key' =>
        if negb (in_range b n) then inl (DataError "total_tokens")
        else if negb (in_range b (tokens_used_default cls))
        then inl (DataError "tokens_used")
        else inr (entry_row cls (next_id s) user_id key' instr lbl n)
    end.
Proof.
  unfold row_of, new_entry, and_then. cbn [id label main_table_user_id api_key
    instructions created_at last_used_at total_tokens tokens_used
    tokens_remaining token_limit_per_day or_default].
  rewrite !adapt_integer_eq, adapt_key_eq.
  destruct (adapt_opt_str (backend s) "label" lbl) as [-> _].
  destruct (adapt_opt_str (backend s) "instructions" instr) as [_ ->].
  cbn zeta.
  destruct (in_range (backend s) (next_id s)); [|done].
  destruct (in_range (backend s) user_id); [|done]. simpl.
  destruct (stored_key (backend s) key) as [key'|]; [|done].
  destruct (in_range (backend s) n); [|done]. simpl.
  by destruct (in_range (backend s) _).
Qed.

(** ** INSERT and flush *)

Lemma insert_inr cls o s r s' :
  insert cls o s = inr (r, s') →
  row_of cls s o = inr r ∧ violation s r = None
  ∧ s' = mkSession (backend s) (api_list s ++ [r]) (users s)
           (if is_none (id o) then (next_id s + 1)%Z else next_id s)
           (new s) (durable s) (inactive s).
Proof.
  unfold insert, and_then. destruct (row_of cls s o) as [e|r0]; [done|].
  destruct (violation s r0) eqn:Hv; [done|]. by intros [= <- <-].
Qed.

Lemma violation_None s r :
  violation s r = None →
  label r ≠ VNone ∧ created_at r ≠ VNone
  ∧ (id r ∉ id <$> api_list s)
  ∧ (api_key r ∉ api_key <$> api_list s)
  ∧ (enforce_fk (backend s) = true →
     references (users s) (main_table_user_id r) = true).
Proof.
  unfold violation.
  destruct (label r); simpl; try done;
  destruct (main_table_user_id r); simpl; try done;
  destruct (api_key r); simpl; try done;
  destruct (created_at r); simpl; try done;
  repeat case_bool_decide; try done;
  destruct (enforce_fk (backend s)); simpl; try done;
  repeat case_bool_decide; try done; intros _; split_and!; done.
Qed.

Lemma violation_ext s s' r :
  backend s = backend s' → api_list s = api_list s' → users s = users s' →
  violation s r = violation s' r.
Proof. unfold violation. by intros -> -> ->. Qed.

Lemma row_of_ext cls s s' o :
  backend s = backend s' → next_id s = next_id s' →
  row_of cls s o = row_of cls s' o.
Proof. unfold row_of. by intros -> ->. Qed.

Lemma flush_app cls ps qs h s :
  flush cls (ps ++ qs) h s
  = match flush cls ps h s with
    | inl e => inl e
    | inr (h1, s1) => flush cls qs h1 s1
    end.
Proof.
  revert h s. induction ps as [|l ps IH]; intros h s; simpl; [done|].
  destruct (h !! l) as [o|]; [|done].
  destruct (insert cls o s) as [e|[r s']]; [done|]. apply IH.
Qed.

Lemma flush_reaches cls ps h s :
  let s1 := (flush_end (flush cls ps h s)).2 in
  (∃ rows, api_list s1 = api_list s ++ rows)
  ∧ backend s1 = backend s ∧ users s1 = users s ∧ new s1 = new s
  ∧ durable s1 = durable s ∧ inactive s1 = inactive s
  ∧ length (flush_end (flush cls ps h s)).1 = length h
  ∧ (unique_api_keys s → unique_api_keys s1).
Proof.
  revert h s. induction ps as [|l ps IH]; intros h s; simpl.
  - split_and!; try done. exists []. by rewrite app_nil_r.
  - destruct (h !! l) as [o|] eqn:Ho.
    2:{ simpl. split_and!; try done. exists []. by rewrite app_nil_r. }
    destruct (insert cls o s) as [e|[r s']] eqn:Hins.
    { simpl. split_and!; try done. exists []. by rewrite app_nil_r. }
    apply insert_inr in Hins as (Hr & Hv & ->).
    apply violation_None in Hv as (_ & _ & _ & Hkey & _).
    destruct (IH (<[l:=with_id (id r) o]> h)
                 (mkSession (backend s) (api_list s ++ [r]) (users s)
                    (if is_none (id o) then (next_id s + 1)%Z else next_id s)
                    (new s) (durable s) (inactive s)))
      as ([rows Hrows] & Hb & Hu & Hn & Hd & Hi & Hlen & Huniq).
    simpl in *. split_and!; try done.
    + exists (r :: rows). by rewrite Hrows, <- app_assoc.
    + by rewrite Hlen, length_insert.
    + intros Hnd. apply Huniq. unfold unique_api_keys in *. simpl.
      rewrite fmap_app. apply NoDup_app.
      split_and!; [done| |apply NoDup_singleton].
      by intros k Hk ->%list_elem_of_singleton.
Qed.
(** An instance that was inserted cannot be inserted again: its row would
    carry the key of the row it has. *)
Lemma row_of_with_id cls s s' v o r r' :
  backend s' = backend s →
  row_of cls s o = inr r → row_of cls s' (with_id v o) = inr r' →
  label r' = label r ∧ main_table_user_id r' = main_table_user_id r
  ∧ api_key r' = api_key r ∧ created_at r' = created_at r.
Proof.
  unfold row_of, and_then, with_id. intros ->. simpl.
  destruct (adapt _ _ "id" (or_default (id o) _)); [done|].
  destruct (adapt _ _ "id" (or_default v _)); [done|].
  destruct (adapt _ _ "label" _); [done|].
  destruct (adapt _ _ "main_table_user_id" _); [done|].
  destruct (adapt _ _ "api_key" _); [done|].
  destruct (adapt _ _ "instructions" _); [done|].
  destruct (adapt _ _ "created_at" _); [done|].
  destruct (adapt _ _ "last_used_at" _); [done|].
  destruct (adapt _ _ "total_tokens" _); [done|].
  destruct (adapt _ _ "tokens_used" _); [done|].
  destruct (adapt _ _ "tokens_remaining" _); [done|].
  destruct (adapt _ _ "token_limit_per_day" _); [done|].
  by intros [= <-] [= <-].
Qed.

Lemma violation_key_taken s s' r r' :
  violation s r = None →
  label r' = label r → main_table_user_id r' = main_table_user_id r →
  api_key r' = api_key r → created_at r' = created_at r →
  api_key r ∈ api_key <$> api_list s' →
  violation s' r' ≠ None.
Proof.
  unfold violation. intros Hv -> -> Hk ->. rewrite Hk.
  destruct (is_none (label r)); [done|].
  destruct (is_none (main_table_user_id r)); [done|].
  destruct (is_none (api_key r)); [done|].
  destruct (is_none (created_at r)); [done|].
  intros Hin. clear Hv.
  destruct (bool_decide (id r' ∈ id <$> api_list s')); [done|].
  by rewrite bool_decide_eq_true_2.
Qed.

Lemma insert_again cls s s' v o r :
  backend s' = backend s →
  row_of cls s o = inr r → violation s r = None →
  r ∈ api_list s' →
  ∃ e, insert cls (with_id v o) s' = inl e.
Proof.
  intros Hb Hr Hv Hin. unfold insert, and_then.
  destruct (row_of cls s' (with_id v o)) as [e|r'] eqn:Hr'; [by exists e|].
  destruct (row_of_with_id _ _ _ _ _ _ _ Hb Hr Hr') as (H1 & H2 & H3 & H4).
  destruct (violation s' r') as [e|] eqn:Hv'; [by exists e|].
  exfalso. eapply violation_key_taken; [exact Hv|done..| |exact Hv'].
  by apply list_elem_of_fmap_2.
Qed.

(** What a successful flush leaves behind: the instances that were not
    pending are untouched, and those that were have their rows. *)
Lemma flush_inr cls ps h s h1 s1 :
  flush cls ps h s = inr (h1, s1) →
  (∀ l, l ∉ ps → h1 !! l = h !! l)
  ∧ (∀ l, l ∈ ps → ∃ o e, h1 !! l = Some o ∧ insert cls o s1 = inl e).
Proof.
  revert h s. induction ps as [|l ps IH]; intros h s; simpl.
  - intros [= <- <-]. split; [done|].
    intros l Hl. by apply not_elem_of_nil in Hl.
  - destruct (h !! l) as [o|] eqn:Ho; [|done].
    destruct (insert cls o s) as [e|[r s']] eqn:Hins; [done|].
    intros Hfl. apply insert_inr in Hins as (Hr & Hv & ->).
    pose proof (flush_reaches cls ps (<[l:=with_id (id r) o]> h)
      (mkSession (backend s) (api_list s ++ [r]) (users s)
         (if is_none (id o) then (next_id s + 1)%Z else next_id s)
         (new s) (durable s) (inactive s))) as Hreach.
    rewrite Hfl in Hreach. simpl in Hreach.
    destruct Hreach as ([rows Hrows] & Hb & _).
    apply IH in Hfl as (Hother & Hin). split.
    + intros l' [Hne Hl']%not_elem_of_cons.
      rewrite Hother by done. by rewrite list_lookup_insert_ne.
    + intros l' [->|Hl']%elem_of_cons; [|by apply Hin].
      destruct (decide (l ∈ ps)) as [Hl|Hl]; [by apply Hin|].
      destruct (insert_again cls s s1 (id r) o r Hb Hr Hv) as [e He].
      { rewrite Hrows, !elem_of_app, list_elem_of_singleton. auto. }
      exists (with_id (id r) o), e. split; [|done].
      rewrite Hother by done.
      apply list_lookup_insert_eq. by eapply lookup_lt_Some.
Qed.

(** A flush does not look at the instances that are not pending: one
    more instance at the end of the heap changes nothing. *)
Lemma flush_heap_ext cls ps h o s h1 s1 :
  length h ∉ ps →
  flush cls ps (h ++ [o]) s = inr (h1, s1) →
  ∃ h0, flush cls ps h s = inr (h0, s1) ∧ h1 = h0 ++ [o].
Proof.
  revert h s. induction ps as [|l ps IH]; intros h s Hl; simpl.
  - intros [= <- <-]. by exists h.
  - apply not_elem_of_cons in Hl as [Hne Hl].
    destruct ((h ++ [o]) !! l) as [a|] eqn:Ha; [|done].
    assert (l < length h) as Hlt.
    { apply lookup_lt_Some in Ha. rewrite length_app in Ha. simpl in Ha. lia. }
    rewrite lookup_app_l in Ha by done. rewrite Ha.
    destruct (insert cls a s) as [e|[r s']]; [done|].
    rewrite insert_app_l by done.
    apply IH. by rewrite length_insert.
Qed.

(** A session cannot change under a flush that has nothing to do with
    its pending list. *)
Lemma flush_session_ext cls ps h s s' :
  backend s' = backend s → api_list s' = api_list s → users s' = users s →
  next_id s' = next_id s →
  match flush cls ps h s, flush cls ps h s' with
  | inr (h1, s1), inr (h1', s1') =>
      h1' = h1 ∧ api_list s1' = api_list s1 ∧ backend s1' = backend s1
  | inl _, inl _ => True
  | _, _ => False
  end.
Proof.
  revert h s s'. induction ps as [|l ps IH]; intros h s s' Hb Ha Hu Hn; simpl.
  - done.
  - destruct (h !! l) as [o|]; [|done].
    unfold insert, and_then.
    rewrite (row_of_ext cls s' s) by done.
    destruct (row_of cls s o) as [e|r]; [done|].
    rewrite (violation_ext s' s) by done.
    destruct (violation s r); [done|].
    apply IH; simpl; by rewrite ?Hb, ?Ha, ?Hu, ?Hn.
Qed.

(** ** The session primitives *)

Lemma session_eta s :
  mkSession (backend s) (api_list s) (users s) (next_id s) (new s)
            (durable s) (inactive s) = s.
Proof. by destruct s. Qed.

(** On an active session with nothing pending, the lookup is the search
    of the table. *)
Lemma get_by_api_key_eq cls key w :
  inactive (db w) = false → new (db w) = [] →
  get_by_api_key cls key w
  = Returned (head (filter (λ r, api_key r = VStr key) (api_list (db w))))
             (log_call CallQuery w).
Proof.
  intros Hact Hnew.
  unfold get_by_api_key, db_query_filter_first, bind, check_active,
    flush_pending, log_call.
  simpl. rewrite Hact. simpl. rewrite Hnew. simpl.
  do 2 f_equal. rewrite <- Hnew at 1. apply session_eta.
Qed.

(** An inactive session refuses the lookup. *)
Lemma get_by_api_key_inactive cls key w :
  inactive (db w) = true →
  get_by_api_key cls key w = Raised PendingRollbackError (log_call CallQuery w).
Proof.
  intros Hact.
  unfold get_by_api_key, db_query_filter_first, bind, check_active. simpl.
  by rewrite Hact.
Qed.

Lemma db_refresh_db l w u w' :
  db_refresh l w = Returned u w' → db w' = db w.
Proof.
  unfold db_refresh, bind, check_active. simpl.
  destruct (inactive (db w)); [done|]. simpl.
  destruct (heap w !! l); [|done].
  destruct (head _); [|done]. by intros [= _ <-].
Qed.
(** ** [create_api_entry] *)

(** The call, step by step: the limit, the constructor, [add], [commit]
    with its flush, [refresh]. *)
Lemma create_api_entry_eq cls user_id key instr lbl token_limit w :
  create_api_entry cls user_id key instr lbl token_limit w
  = match resolved_limit token_limit (environ w) with
    | None => Raised ValueError w
    | Some n =>
        let l := length (heap w) in
        let h := heap w ++ [new_entry user_id key instr lbl (VInt n)] in
        let t := (trace w ++ [CallAdd l]) ++ [CallCommit] in
        let s := mkSession (backend (db w)) (api_list (db w)) (users (db w))
                   (next_id (db w)) (new (db w) ++ [l]) (durable (db w))
                   (inactive (db w)) in
        if inactive (db w)
        then Raised PendingRollbackError (mkWorld (environ w) (clock w) h s t)
        else
          match flush cls (new (db w) ++ [l]) h s with
          | inl (e, h1, s1) =>
              Raised e (mkWorld (environ w) (clock w) h1 (rolled_back s1) t)
          | inr (h1, s1) =>
              let s2 := mkSession (backend s1) (api_list s1) (users s1)
                          (next_id s1) [] (length (api_list s1)) (inactive s1) in
              let w2 := mkWorld (environ w) (clock w) h1 s2
                          (t ++ [CallRefresh l]) in
              if inactive s1 then Raised PendingRollbackError w2
              else
                match h1 !! l with
                | None => Raised InvalidRequestError w2
                | Some o =>
                    match head (filter (λ r, id r = id o) (api_list s1)) with
                    | Some r =>
                        Returned l (mkWorld (environ w) (clock w) (<[l := r]> h1)
                                      s2 (t ++ [CallRefresh l]))
                    | None => Raised InvalidRequestError w2
                    end
                end
          end
    end.
Proof.
  unfold create_api_entry, bind. rewrite py_or_free_tokens_eq.
  destruct (resolved_limit token_limit (environ w)) as [n|]; [|done].
  rewrite APIList_init_entry.
  unfold alloc, db_add, db_commit, db_refresh, check_active, flush_pending,
    bind, ret, set_db, set_heap, log_call.
  cbn [db heap environ clock trace inactive new backend api_list users next_id
       durable].
  destruct (inactive (db w)); [done|].
  destruct (flush _ _ _ _) as [[[e h1] s1]|[h1 s1]]; [done|].
  cbn [db heap environ clock trace inactive new backend api_list users next_id
       durable].
  destruct (inactive s1); [done|].
  cbn [db heap environ clock trace inactive new backend api_list users next_id
       durable].
  destruct (h1 !! length (heap w)) as [o|]; [|done].
  by destruct (head _).
Qed.

Lemma take_app_all {A} (l k : list A) : take (length l) (l ++ k) = l.
Proof. by rewrite take_app_length. Qed.

Lemma unique_api_keys_take (l : list APIList) k :
  NoDup (api_key <$> l) → NoDup (api_key <$> take k l).
Proof.
  intros Hnd. rewrite fmap_take.
  eapply sublist_NoDup; [done|apply sublist_take].
Qed.

(** Both outcomes of a call. *)
Lemma create_outcome cls user_id key instr lbl tl w :
  match create_api_entry cls user_id key instr lbl tl w with
  | Returned l w' =>
      ∃ n i key' rows, Created cls user_id key instr lbl tl w l w' n i key' rows
  | Raised e w' => Failed cls user_id key instr lbl tl w e w'
  end.
Proof.
  rewrite create_api_entry_eq.
  destruct (resolved_limit tl (environ w)) as [n|] eqn:Hn.
  2:{ split; try done. by rewrite Hn. }
  cbn zeta.
  destruct (inactive (db w)) eqn:Hact.
  { split; try done. rewrite Hn, Hact. simpl.
    rewrite length_app, <- app_assoc. simpl. split_and!; try done. lia. }
  set (o := new_entry user_id key instr lbl (VInt n)).
  set (s := mkSession _ _ _ _ _ _ _).
  pose proof (flush_reaches cls (new (db w) ++ [length (heap w)])
                (heap w ++ [o]) s) as Hreach.
  destruct (flush cls (new (db w) ++ _) _ s) as [[[e h1] s1]|[h1 s1]] eqn:Hfl.
  { simpl in Hreach.
    destruct Hreach as ([rows Hrows] & Hb & Hu & _ & Hd & _ & Hlen & Huniq).
    split; try done.
    - intros Hnd. unfold unique_api_keys. simpl.
      apply unique_api_keys_take. by apply Huniq.
    - intros Hdur. simpl. by rewrite Hrows, Hd, Hdur, take_app_all.
    - rewrite Hn, Hact. simpl. rewrite Hlen, length_app, <- app_assoc. simpl.
      split_and!; try done. lia. }
  simpl in Hreach.
  destruct Hreach as ([rows0 Hrows0] & Hb & Hu & _ & Hd & Hi & Hlen & Huniq).
  simpl in Hi. rewrite Hi.
  rewrite flush_app in Hfl.
  destruct (flush cls (new (db w)) (heap w ++ [o]) s)
    as [[[e ha] sa]|[ha sa]] eqn:Hfa; [done|].
  pose proof (flush_reaches cls (new (db w)) (heap w ++ [o]) s) as Hra.
  rewrite Hfa in Hra. simpl in Hra.
  destruct Hra as ([rows Hrows] & Hba & Hua & _ & _ & _ & Hlena & Hunia).
  rewrite length_app in Hlena. simpl in Hlena.
  pose proof (flush_inr _ _ _ _ _ _ Hfa) as [Hother Hin].
  simpl in Hfl.
  destruct (ha !! length (heap w)) as [oa|] eqn:Hoa; [|done].
  destruct (insert cls oa sa) as [e|[r s']] eqn:Hins; [done|].
  injection Hfl as <- <-.
  destruct (decide (length (heap w) ∈ new (db w))) as [Hdup|Hnew].
  { destruct (Hin _ Hdup) as (o' & e & Ho' & He). congruence. }
  rewrite Hother, list_lookup_middle in Hoa by done.
  injection Hoa as <-.
  apply insert_inr in Hins as (Hr & Hv & ->).
  unfold o in Hr. rewrite row_of_entry in Hr. cbn zeta in Hr.
  rewrite Hba in Hr. simpl in Hr.
  destruct (in_range (backend (db w)) (next_id sa)) eqn:Hri; [|done].
  destruct (in_range (backend (db w)) user_id) eqn:Hru; [|done].
  simpl in Hr.
  destruct (stored_key (backend (db w)) key) as [key'|] eqn:Hkey; [|done].
  destruct (in_range (backend (db w)) n) eqn:Hrn; [|done].
  destruct (in_range (backend (db w)) (tokens_used_default cls)) eqn:Hrd;
    [|done].
  simpl in Hr. injection Hr as <-.
  pose proof (violation_None _ _ Hv) as (Hlbl & _ & Hid & Hkfresh & Hfk).
  simpl in Hrows, Hid, Hkfresh, Hfk, Hlbl, Hb, Hu, Hua |- *.
  rewrite list_lookup_insert_eq by lia.
  simpl. rewrite head_filter_app_fresh; [| |reflexivity].
  2:{ intros y Hy Heq. apply Hid. simpl in Heq. rewrite <- Heq.
      by apply list_elem_of_fmap_2. }
  exists n, (next_id sa), key', rows.
  split; simpl; try done.
  - apply list_lookup_insert_eq. rewrite length_insert. lia.
  - by rewrite Hrows.
  - by destruct lbl.
  - by rewrite <- Hrows.
  - by rewrite <- Hrows.
  - intros Hen. rewrite Hba in Hfk. simpl in Hfk. specialize (Hfk Hen).
    rewrite Hua in Hfk. simpl in Hfk. by apply bool_decide_eq_true in Hfk.
  - intros Hclean. rewrite Hclean in Hfa. simpl in Hfa.
    injection Hfa as <- <-. simpl in Hrows. split; [|done].
    rewrite <- (app_nil_r (api_list (db w))) in Hrows at 1.
    by apply app_inv_head in Hrows.
  - by rewrite <- !app_assoc.
  - destruct (flush_heap_ext _ _ _ _ _ _ _ Hnew Hfa) as (h0 & Hf0 & _).
    pose proof (flush_session_ext cls (new (db w)) (heap w) s (db w)
                  eq_refl eq_refl eq_refl eq_refl) as Hext.
    rewrite Hf0 in Hext.
    destruct (flush cls (new (db w)) (heap w) (db w))
      as [[[e h0'] s0]|[h0' s0]]; [done|].
    destruct Hext as (_ & Hl & _). exists h0', s0. split; [done|].
    by rewrite Hl.
Qed.

Lemma create_returned cls user_id key instr lbl tl w l w' :
  create_api_entry cls user_id key instr lbl tl w = Returned l w' →
  ∃ n i key' rows, Created cls user_id key instr lbl tl w l w' n i key' rows.
Proof.
  intros Hc. pose proof (create_outcome cls user_id key instr lbl tl w) as H.
  by rewrite Hc in H.
Qed.

Lemma create_raised cls user_id key instr lbl tl w e w' :
  create_api_entry cls user_id key instr lbl tl w = Raised e w' →
  Failed cls user_id key instr lbl tl w e w'.
Proof.
  intros Hc. pose proof (create_outcome cls user_id key instr lbl tl w) as H.
  by rewrite Hc in H.
Qed.

(** The outcome on an active session with nothing pending. *)
Lemma create_clean cls user_id key instr lbl token_limit w :
  new (db w) = [] → inactive (db w) = false →
  create_api_entry cls user_id key instr lbl token_limit w
  = match resolved_limit token_limit (environ w) with
    | None => Raised ValueError w
    | Some n =>
        let o := new_entry user_id key instr lbl (VInt n) in
        match row_of cls (db w) o with
        | inl e => Raised e (commit_raised o w)
        | inr r =>
            match violation (db w) r with
            | Some e => Raised e (commit_raised o w)
            | None => Returned (length (heap w)) (committed r w)
            end
        end
    end.
Proof.
  intros Hclean Hact. rewrite create_api_entry_eq.
  destruct (resolved_limit token_limit (environ w)) as [n|]; [|done].
  cbn zeta. rewrite Hact, Hclean. simpl.
  rewrite list_lookup_middle by done.
  unfold insert, and_then.
  set (o := new_entry user_id key instr lbl (VInt n)).
  rewrite (row_of_ext cls _ (db w)) by reflexivity.
  unfold commit_raised, rolled_back. simpl.
  destruct (row_of cls (db w) o) as [e|r] eqn:Hr.
  { by rewrite <- app_assoc. }
  rewrite (violation_ext _ (db w)) by reflexivity.
  destruct (violation (db w) r) as [e|] eqn:Hv.
  { by rewrite <- app_assoc. }
  pose proof (violation_None _ _ Hv) as (_ & _ & Hid & _).
  simpl.
  rewrite list_lookup_insert_eq by (rewrite length_app; simpl; lia).
  simpl. rewrite head_filter_app_fresh; [| |reflexivity].
  2:{ intros y Hy Heq. apply Hid. rewrite <- Heq.
      by apply list_elem_of_fmap_2. }
  unfold committed. f_equal. f_equal.
  - rewrite list_insert_insert_eq, insert_app_r_alt by lia.
    by rewrite Nat.sub_diag.
  - by rewrite <- !app_assoc.
Qed.

(** Every call keeps the keys unique, whether it returns or raises. *)
Lemma create_preserves_unique cls user_id key instr lbl token_limit w :
  unique_api_keys (db w) →
  unique_api_keys
    (db (world_of (create_api_entry cls user_id key instr lbl token_limit w))).
Proof.
  intros Hnd.
  pose proof (create_outcome cls user_id key instr lbl token_limit w) as Ho.
  destruct (create_api_entry _ _ _ _ _ _ _) as [l w'|e w']; simpl.
  - destruct Ho as (n & i & key' & rows & Hc). by apply Hc.
  - by apply Ho.
Qed.

(** From a session with nothing pending, a returning call keeps the
    sequence ahead of the table. *)
Lemma create_preserves_sequence cls user_id key instr lbl token_limit w l w' :
  new (db w) = [] → sequence_ahead (db w) →
  create_api_entry cls user_id key instr lbl token_limit w = Returned l w' →
  sequence_ahead (db w').
Proof.
  intros Hclean Hseq (n & i & key' & rows & Hc)%create_returned.
  destruct (created_clean Hc Hclean) as [-> ->].
  intros r. rewrite (created_rows Hc), (created_next_id Hc), app_nil_r.
  intros [Hr| ->%list_elem_of_singleton]%elem_of_app.
  - destruct (Hseq r Hr) as (j & Hj & Hlt). exists j. split; [done|lia].
  - eexists. split; [reflexivity|lia].
Qed.

(** The clock is not read: a call made later does the same. *)
Lemma create_ignores_clock cls user_id key instr lbl token_limit dt w :
  create_api_entry cls user_id key instr lbl token_limit (advance dt w)
  = map_world (advance dt) (create_api_entry cls user_id key instr lbl token_limit w).
Proof.
  rewrite !create_api_entry_eq. simpl.
  destruct (resolved_limit _ _) as [n|]; [|done]. cbn zeta.
  destruct (inactive (db w)); [done|].
  destruct (flush _ _ _ _) as [[[e h1] s1]|[h1 s1]]; [done|].
  destruct (inactive s1); [done|].
  destruct (h1 !! _) as [o|]; [|done].
  by destruct (head _).
Qed.

(** A call without label never returns. *)
Lemma create_without_label_raises cls user_id key instr token_limit w :
  ∃ e w', create_api_entry cls user_id key instr None token_limit w = Raised e w'.
Proof.
  pose proof (create_outcome cls user_id key instr None token_limit w) as Ho.
  destruct (create_api_entry _ _ _ _ _ _ _) as [l w'|e w'].
  { destruct Ho as (n & i & key' & rows & Hc). by destruct (created_label Hc). }
  by exists e, w'.
Qed.


Lemma create_world3 :
  create_api_entry cls0 1 "def456" (Some "be brief") (Some "other") (Some 5000%Z) world2
  = Returned 1 world3.
Proof. vm_compute. reflexivity. Qed.

Lemma unique_api_keys_boot : unique_api_keys (db boot).
Proof. apply NoDup_nil_2. Qed.

Lemma sequence_ahead_boot : sequence_ahead (db boot).
Proof. intros r Hr. by apply not_elem_of_nil in Hr. Qed.

(** ** Lookup *)

(** A lookup keeps the keys unique, whether it returns or raises. *)
Lemma get_by_api_key_preserves_unique cls key w :
  unique_api_keys (db w) →
  unique_api_keys (db (world_of (get_by_api_key cls key w))).
Proof.
  intros Hnd.
  unfold get_by_api_key, db_query_filter_first, bind, check_active,
    flush_pending, log_call.
  simpl. destruct (inactive (db w)); [done|]. simpl.
  pose proof (flush_reaches cls (new (db w)) (heap w) (db w)) as Hreach.
  destruct (flush cls (new (db w)) (heap w) (db w))
    as [[[e h1] s1]|[h1 s1]]; simpl in *.
  - destruct Hreach as (_ & _ & _ & _ & _ & _ & _ & Huniq).
    unfold unique_api_keys. simpl. apply unique_api_keys_take. by apply Huniq.
  - destruct Hreach as (_ & _ & _ & _ & _ & _ & _ & Huniq). by apply Huniq.
Qed.

(** The lookup on an active session, whatever is pending: the pending
    instances are flushed first. *)
Lemma get_by_api_key_flushed cls key w h1 s1 :
  inactive (db w) = false →
  flush cls (new (db w)) (heap w) (db w) = inr (h1, s1) →
  ∃ wq, get_by_api_key cls key w
        = Returned (head (filter (λ r, api_key r = VStr key) (api_list s1))) wq.
Proof.
  intros Hact Hfl.
  unfold get_by_api_key, db_query_filter_first, bind, check_active,
    flush_pending, log_call.
  simpl. rewrite Hact. simpl. rewrite Hfl. simpl. by eexists.
Qed.

(** ** Rows that pass and rows that fail *)

Lemma sequence_ahead_fresh s :
  sequence_ahead s → VInt (next_id s) ∉ id <$> api_list s.
Proof.
  intros Hseq (r & Hr & Hin)%list_elem_of_fmap.
  destruct (Hseq r Hin) as (j & Hj & Hlt). rewrite Hj in Hr.
  injection Hr as Hr. lia.
Qed.

(** The row of a call whose integers are in range and whose key the
    column accepts. *)
Lemma row_of_entry_storable cls s user_id key key' instr lbl n :
  storable cls s user_id n →
  stored_key (backend s) key = Some key' →
  row_of cls s (new_entry user_id key instr lbl (VInt n))
  = inr (entry_row cls (next_id s) user_id key' instr lbl n).
Proof.
  intros (Hi & Hu & Hn & Hd) Hk. rewrite row_of_entry. cbn zeta.
  by rewrite Hi, Hu, Hk, Hn, Hd.
Qed.


(** A row that meets every constraint. *)
Lemma violation_valid s cls i user_id key instr l n :
  VInt i ∉ id <$> api_list s →
  VStr key ∉ api_key <$> api_list s →
  (enforce_fk (backend s) = true → user_id ∈ users s) →
  violation s (entry_row cls i user_id key instr (Some l) n) = None.
Proof.
  intros Hid Hkey Hfk. unfold violation. simpl.
  rewrite !bool_decide_eq_false_2 by done.
  destruct (enforce_fk (backend s)); [|done]. simpl.
  by rewrite bool_decide_eq_true_2 by (by apply Hfk).
Qed.

(** A row of an owner who does not exist. *)
Lemma violation_unknown_owner s cls i user_id key instr l n :
  VInt i ∉ id <$> api_list s →
  VStr key ∉ api_key <$> api_list s →
  enforce_fk (backend s) = true → user_id ∉ users s →
  violation s (entry_row cls i user_id key instr (Some l) n)
  = Some (IntegrityError (ForeignKeyViolation "main_table_user_id")).
Proof.
  intros Hid Hkey Hfk Huser. unfold violation. simpl.
  by rewrite Hfk, !bool_decide_eq_false_2.
Qed.






(** * The claims *)

(** ** Budget counters of a new record *)

(** C1, as stated, fails for [token_limit = 0].  The limit is given, so in
    the words of the specification it is the resolved limit; the call
    returns a record whose [total_tokens] and [tokens_remaining] are the
    free-tier default 1000 and not the supplied 0. *)
Lemma create_zero_limit_counterexample :
  ∃ l w' o,
    create_api_entry cls0 1 "abc123" None (Some "mine") (Some 0%Z) boot
    = Returned l w'
    ∧ heap w' !! l = Some o
    ∧ spec_limit (Some 0%Z) (environ boot) = Some 0%Z
    ∧ total_tokens o = VInt 1000 ∧ tokens_remaining o = VInt 1000
    ∧ total_tokens o ≠ VInt 0 ∧ tokens_remaining o ≠ VInt 0.
Proof.
  eexists _, _, _. split; [vm_compute; reflexivity|].
  split; [reflexivity|]. done.
Qed.

(** C1, amended.  For every call of [create_api_entry] that returns a
    record, the resolved token limit, which is the supplied [token_limit]
    if it is given and not zero and otherwise the free-tier default of the
    environment, is written to both [total_tokens] and [tokens_remaining]
    of the returned record, and [tokens_used] is 0. *)
Theorem create_writes_resolved_limit dotenv w0 w1 cls user_id key instr lbl
    token_limit w l w' :
  import_api_list dotenv w0 = Returned cls w1 →
  create_api_entry cls user_id key instr lbl token_limit w = Returned l w' →
  ∃ n o, resolved_limit token_limit (environ w) = Some n
         ∧ heap w' !! l = Some o
         ∧ total_tokens o = VInt n
         ∧ tokens_remaining o = VInt n
         ∧ tokens_used o = VInt 0.
Proof.
  intros [_ Hused]%import_api_list_defaults
         (n & i & key' & rows & Hc)%create_returned.
  exists n, (entry_row cls i user_id key' instr lbl n).
  split_and!; [apply Hc..| | |]; simpl; by rewrite ?Hused.
Qed.

Lemma create_writes_resolved_limit_witness :
  (import_api_list ∅ boot = Returned cls0 boot
   ∧ create_api_entry cls0 1 "def456" (Some "be brief") (Some "other")
       (Some 5000%Z) world2 = Returned 1 world3)
  ∧ ∃ n o, resolved_limit (Some 5000%Z) (environ world2) = Some n
           ∧ heap world3 !! 1 = Some o
           ∧ total_tokens o = VInt n
           ∧ tokens_remaining o = VInt n
           ∧ tokens_used o = VInt 0.
Proof.
  split; [split; [reflexivity|vm_compute; reflexivity]|].
  apply (create_writes_resolved_limit ∅ boot boot cls0 1 "def456"
           (Some "be brief") (Some "other") (Some 5000%Z) world2 1 world3).
  - reflexivity.
  - vm_compute; reflexivity.
Defined.

(** ** Create, then look up *)

(** C2 fails on the call the specification gives as its example, which
    omits the optional [label]: [create_api_entry] raises the NOT NULL
    violation on [label] and creates nothing, and the lookup by the same
    key that follows immediately returns no record: the session refuses
    it with [PendingRollbackError], and the table has no row.  The same
    holds for every call that omits the label: none returns. *)
Theorem lookup_after_create_without_label :
  create_api_entry cls0 1 "abc123" None None None boot
  = Raised (IntegrityError (NotNullViolation "label")) world_failed
  ∧ get_by_api_key cls0 "abc123" world_failed
    = Raised PendingRollbackError (log_call CallQuery world_failed)
  ∧ api_list (db world_failed) = []
  ∧ ∀ cls user_id key instr token_limit w,
      ∃ e w', create_api_entry cls user_id key instr None token_limit w
              = Raised e w'.
Proof.
  split_and!; [vm_compute; reflexivity..|].
  intros. apply create_without_label_raises.
Qed.

(** ** Uniqueness of [api_key] *)




(** The second call of the witness, evaluated: the uniqueness violation;
    the table is as it was and the session is inactive. *)
Example duplicate_api_key_evaluated :
  ∃ w2, create_api_entry cls0 1 "abc123" (Some "again") (Some "other")
          (Some 5000%Z) world1
        = Raised (IntegrityError (UniqueViolation "api_key")) w2
        ∧ api_list (db w2) = api_list (db world1)
        ∧ new (db w2) = [] ∧ inactive (db w2) = true.
Proof. eexists. split; [vm_compute; reflexivity|done]. Qed.

(** ** Lookup *)

(** C4, as stated, fails: the lookup can raise when no record matches, and
    it can change the store.  On the session of the call that omitted the
    label, whose commit has failed, the lookup of a key that no row has
    raises [PendingRollbackError].  On a session in which an instance is
    pending, the lookup flushes it first: the row is inserted and the
    sequence advances. *)
Lemma lookup_raises_counterexample :
  (VStr "nonexistent" ∉ api_key <$> api_list (db world_failed))
  ∧ get_by_api_key cls0 "nonexistent" world_failed
    = Raised PendingRollbackError (log_call CallQuery world_failed)
  ∧ ∃ res wq,
      get_by_api_key cls0 "nonexistent" world_pending = Returned res wq
      ∧ api_list (db world_pending) = []
      ∧ length (api_list (db wq)) = 1
      ∧ next_id (db wq) = (next_id (db world_pending) + 1)%Z.
Proof.
  split_and!.
  - apply not_elem_of_nil.
  - vm_compute; reflexivity.
  - eexists _, _. split; [vm_compute; reflexivity|done].
Qed.

(** C4, amended.  On an active session in which nothing is pending, for
    every key string, [get_by_api_key] returns and does not raise; it
    leaves the session, the heap and the environment as they were; a
    record it returns is a row whose [api_key] is exactly the given string;
    it returns nothing exactly when no row has that key; and with unique
    keys the returned row is the only one with that key. *)
Theorem get_by_api_key_exact cls key w :
  inactive (db w) = false → new (db w) = [] →
  ∃ res w',
    get_by_api_key cls key w = Returned res w'
    ∧ db w' = db w ∧ heap w' = heap w ∧ environ w' = environ w
    ∧ (∀ r, res = Some r → r ∈ api_list (db w) ∧ api_key r = VStr key)
    ∧ (res = None ↔ VStr key ∉ api_key <$> api_list (db w))
    ∧ (unique_api_keys (db w) →
       ∀ r r', res = Some r → r' ∈ api_list (db w) → api_key r' = VStr key →
               r' = r).
Proof.
  intros Hact Hnew.
  eexists _, _. split; [by apply get_by_api_key_eq|].
  split_and!; try done.
  - intros r Hr. by apply head_filter_Some in Hr.
  - rewrite head_filter_None, list_elem_of_fmap. split.
    + intros Hall (r & Hk & Hr). by apply (Hall r).
    + intros Hno r Hr Hk. apply Hno. by exists r.
  - intros Hnd r r' [Hr Hk]%head_filter_Some Hr' Hk'.
    apply (NoDup_fmap_eq api_key (api_list (db w))); try done. congruence.
Qed.

Lemma get_by_api_key_exact_witness :
  (inactive (db world1) = false ∧ new (db world1) = []
   ∧ unique_api_keys (db world1))
  ∧ ∃ r w',
      get_by_api_key cls0 "abc123" world1 = Returned (Some r) w'
      ∧ db w' = db world1
      ∧ r ∈ api_list (db world1) ∧ api_key r = VStr "abc123"
      ∧ ∀ r', r' ∈ api_list (db world1) → api_key r' = VStr "abc123" → r' = r.
Proof.
  assert (unique_api_keys (db world1)) as Hu
    by (vm_compute; apply NoDup_singleton).
  split; [split_and!; [reflexivity|reflexivity|exact Hu]|].
  destruct (get_by_api_key_exact cls0 "abc123" world1 eq_refl eq_refl)
    as (res & w' & Hget & Hdb & _ & _ & Hin & [Hmiss _] & Huniq).
  destruct res as [r|].
  - exists r, w'. destruct (Hin r eq_refl) as [Hr Hk].
    split_and!; [exact Hget|exact Hdb|exact Hr|exact Hk|].
    intros r'. exact (Huniq Hu r r' eq_refl).
  - exfalso. apply (Hmiss eq_refl).
    replace (api_key <$> api_list (db world1)) with [VStr "abc123"]
      by (vm_compute; reflexivity).
    left.
Defined.

(** The comparison is exact: another case of the same letters is a miss. *)
Example get_by_api_key_case_sensitive :
  (∃ r w', get_by_api_key cls0 "abc123" world1 = Returned (Some r) w'
           ∧ api_key r = VStr "abc123")
  ∧ (∃ w', get_by_api_key cls0 "ABC123" world1 = Returned None w')
  ∧ (∃ w', get_by_api_key cls0 "nonexistent" world1 = Returned None w').
Proof.
  split_and!; [eexists _, _; split|eexists|eexists]; vm_compute; reflexivity.
Qed.

(** ** The label *)

(** C5.  The call of the specification's example, which omits [label], on a
    store where user 1 exists: the commit raises the NOT NULL violation on
    [label], nothing is stored and no record is returned; the transaction
    is rolled back, the rejected instance is no longer pending, the
    sequence value is consumed and the session is left inactive. *)
Theorem create_without_label_fails :
  create_api_entry cls0 1 "abc123" None None None boot
  = Raised (IntegrityError (NotNullViolation "label"))
           (mkWorld ∅ 1700000000
              [mkAPIList VNone VNone (VInt 1) (VStr "abc123") VNone VNone VNone
                         (VInt 1000) VNone (VInt 1000) (VInt 1000)]
              (mkSession strict [] {[1%Z]} 2 [] 0 true)
              [CallAdd 0; CallCommit]).
Proof. vm_compute. reflexivity. Qed.

(** ** The two fallbacks *)

(** C6.  When [FREE_TOKENS] is set neither in the environment nor in the
    [.env] file, the column defaults of [total_tokens] and
    [tokens_remaining] are the integer 50000 and the creation path reads
    the integer 1000; whenever the creation path reads a value at all, it
    is an integer. *)
Theorem free_tokens_fallbacks dotenv w0 cls w1 :
  environ w0 !! "FREE_TOKENS" = None →
  dotenv !! "FREE_TOKENS" = None →
  import_api_list dotenv w0 = Returned cls w1 →
  total_tokens_default cls = VInt 50000
  ∧ tokens_remaining_default cls = VInt 50000
  ∧ free_tokens w1 = Returned (VInt 1000) w1
  ∧ ∀ w v w', free_tokens w = Returned v w' → ∃ n, v = VInt n.
Proof.
  intros He Hd. rewrite import_api_list_eq. simpl.
  assert ((environ w0 ∪ dotenv) !! "FREE_TOKENS" = None) as Hu
    by (by apply lookup_union_None).
  rewrite Hu. intros [= <- <-]. split_and!; try done.
  - rewrite free_tokens_eq. unfold free_tier. simpl. by rewrite Hu.
  - intros w v w'. rewrite free_tokens_eq.
    destruct (free_tier _) as [n|]; [|done]. intros [= <- _]. by exists n.
Qed.

Lemma free_tokens_fallbacks_witness :
  (environ boot !! "FREE_TOKENS" = None
   ∧ (∅ : gmap string string) !! "FREE_TOKENS" = None
   ∧ import_api_list ∅ boot = Returned cls0 boot)
  ∧ total_tokens_default cls0 = VInt 50000
  ∧ tokens_remaining_default cls0 = VInt 50000
  ∧ free_tokens boot = Returned (VInt 1000) boot
  ∧ ∀ w v w', free_tokens w = Returned v w' → ∃ n, v = VInt n.
Proof.
  split; [split_and!; reflexivity|].
  apply (free_tokens_fallbacks ∅ boot cls0 boot); reflexivity.
Defined.

(** ** The creation timestamp *)

(** C7.  The default of [created_at] is the time at which the class
    statement ran: any two records created by [create_api_entry] with the
    class of one import carry that same timestamp, whatever the clock shows
    at the calls; and a call made [dt] later has the same outcome. *)
Theorem created_at_fixed_at_import dotenv w0 cls w1
    user_a key_a instr_a lbl_a limit_a wa la wa'
    user_b key_b instr_b lbl_b limit_b wb lb wb' :
  import_api_list dotenv w0 = Returned cls w1 →
  create_api_entry cls user_a key_a instr_a lbl_a limit_a wa = Returned la wa' →
  create_api_entry cls user_b key_b instr_b lbl_b limit_b wb = Returned lb wb' →
  (∃ oa ob, heap wa' !! la = Some oa ∧ heap wb' !! lb = Some ob
            ∧ created_at oa = VTime (clock w0)
            ∧ created_at ob = created_at oa)
  ∧ ∀ dt, create_api_entry cls user_b key_b instr_b lbl_b limit_b (advance dt wb)
          = Returned lb (advance dt wb').
Proof.
  intros [Hcr _]%import_api_list_defaults Hca Hcb. split.
  - apply create_returned in Hca as (na & ia & ka & rows_a & Ha).
    apply create_returned in Hcb as (nb & ib & kb & rows_b & Hb).
    eexists _, _. split_and!; [apply Ha|apply Hb|..]; simpl; congruence.
  - intros dt. by rewrite create_ignores_clock, Hcb.
Qed.

Lemma created_at_fixed_at_import_witness :
  (import_api_list ∅ boot = Returned cls0 boot
   ∧ create_api_entry cls0 1 "abc123" None (Some "mine") None boot
     = Returned 0 world1
   ∧ create_api_entry cls0 1 "def456" (Some "be brief") (Some "other")
       (Some 5000%Z) world2 = Returned 1 world3)
  ∧ (∃ oa ob, heap world1 !! 0 = Some oa ∧ heap world3 !! 1 = Some ob
              ∧ created_at oa = VTime (clock boot)
              ∧ created_at ob = created_at oa)
  ∧ ∀ dt, create_api_entry cls0 1 "def456" (Some "be brief") (Some "other")
            (Some 5000%Z) (advance dt world2)
          = Returned 1 (advance dt world3).
Proof.
  split; [split_and!; vm_compute; reflexivity|].
  apply (created_at_fixed_at_import ∅ boot cls0 boot
           1 "abc123" None (Some "mine") None boot 0 world1
           1 "def456" (Some "be brief") (Some "other") (Some 5000%Z)
           world2 1 world3); vm_compute; reflexivity.
Defined.

(** ** Add, commit, refresh *)

(** The steps of a returning call, in the order of the source. *)
Lemma create_steps cls user_id key instr lbl token_limit w l w' :
  create_api_entry cls user_id key instr lbl token_limit w = Returned l w' →
  ∃ limit wi wa wc,
    py_or (opt_int token_limit) free_tokens w = Returned limit w
    ∧ APIList_init (entry_kwargs user_id key instr lbl limit) w = Returned l wi
    ∧ db_add l wi = Returned () wa
    ∧ db_commit cls wa = Returned () wc
    ∧ db_refresh l wc = Returned () w'.
Proof.
  unfold create_api_entry, bind.
  pose proof (py_or_free_tokens_eq token_limit w) as Hl.
  destruct (resolved_limit _ _) as [n|]; rewrite Hl; [|discriminate].
  destruct (APIList_init _ w) as [l0 wi|] eqn:Hi; [|discriminate].
  destruct (db_add l0 wi) as [[] wa|] eqn:Ha; [|discriminate].
  destruct (db_commit cls wa) as [[] wc|] eqn:Hc; [|discriminate].
  destruct (db_refresh l0 wc) as [[] wr|] eqn:Hr; [|discriminate].
  intros [= <- <-]. exists (VInt n), wi, wa, wc. auto.
Qed.

(** C8.  A returning call of [create_api_entry] has called, in this order,
    [add], [commit] and [refresh] on the session and nothing else; the
    commit has put the new row at the end of the table and has made every
    row durable, so before the refresh and before the return, and has left
    nothing pending; the refresh has loaded that row into the returned
    record, which so carries the primary key the store assigned and the
    column defaults of [created_at] and [tokens_used]. *)
Theorem create_add_commit_refresh cls user_id key instr lbl token_limit w l w' :
  create_api_entry cls user_id key instr lbl token_limit w = Returned l w' →
  ∃ r rows i limit wi wa wc,
    APIList_init (entry_kwargs user_id key instr lbl limit) w = Returned l wi
    ∧ db_add l wi = Returned () wa
    ∧ db_commit cls wa = Returned () wc
    ∧ db_refresh l wc = Returned () w'
    ∧ trace w' = trace w ++ [CallAdd l; CallCommit; CallRefresh l]
    ∧ api_list (db wc) = (api_list (db w) ++ rows) ++ [r]
    ∧ durable (db wc) = length (api_list (db wc))
    ∧ db w' = db wc
    ∧ new (db w') = []
    ∧ heap w' !! l = Some r
    ∧ id r = VInt i ∧ next_id (db w') = (i + 1)%Z
    ∧ created_at r = VTime (created_at_default cls)
    ∧ tokens_used r = VInt (tokens_used_default cls)
    ∧ last_used_at r = VNone.
Proof.
  intros Hcr. pose proof Hcr as (n & i & key' & rows & Hc)%create_returned.
  apply create_steps in Hcr
    as (limit & wi & wa & wc & _ & Hinit & Hadd & Hcommit & Hrefresh).
  pose proof (db_refresh_db _ _ _ _ Hrefresh) as Hdb.
  exists (entry_row cls i user_id key' instr lbl n), rows, i, limit, wi, wa, wc.
  split_and!;
    [exact Hinit|exact Hadd|exact Hcommit|exact Hrefresh
    |exact (created_trace Hc)
    |rewrite <- Hdb; exact (created_rows Hc)
    |rewrite <- Hdb; exact (created_durable Hc)
    |exact Hdb
    |exact (created_new Hc)
    |exact (created_obj Hc)
    |reflexivity
    |exact (created_next_id Hc)
    |reflexivity..].
Qed.

Lemma create_add_commit_refresh_witness :
  create_api_entry cls0 1 "abc123" None (Some "mine") None boot = Returned 0 world1
  ∧ ∃ r rows i limit wi wa wc,
      APIList_init (entry_kwargs 1 "abc123" None (Some "mine") limit) boot
      = Returned 0 wi
      ∧ db_add 0 wi = Returned () wa
      ∧ db_commit cls0 wa = Returned () wc
      ∧ db_refresh 0 wc = Returned () world1
      ∧ trace world1 = trace boot ++ [CallAdd 0; CallCommit; CallRefresh 0]
      ∧ api_list (db wc) = (api_list (db boot) ++ rows) ++ [r]
      ∧ durable (db wc) = length (api_list (db wc))
      ∧ db world1 = db wc
      ∧ new (db world1) = []
      ∧ heap world1 !! 0 = Some r
      ∧ id r = VInt i ∧ next_id (db world1) = (i + 1)%Z
      ∧ created_at r = VTime (created_at_default cls0)
      ∧ tokens_used r = VInt (tokens_used_default cls0)
      ∧ last_used_at r = VNone.
Proof.
  split; [vm_compute; reflexivity|].
  apply (create_add_commit_refresh cls0 1 "abc123" None (Some "mine") None
           boot 0 world1).
  vm_compute; reflexivity.
Defined.

(** ** A limit of zero *)

(** C9.  A call with [token_limit = 0] is the call without [token_limit]:
    the two have the same outcome, and in a record the call returns,
    [token_limit_per_day], [total_tokens] and [tokens_remaining] are all
    the free-tier default of the environment, which is 1000 when
    [FREE_TOKENS] is unset, and not 0. *)
Theorem zero_limit_is_default cls user_id key instr lbl w :
  create_api_entry cls user_id key instr lbl (Some 0%Z) w
  = create_api_entry cls user_id key instr lbl None w
  ∧ ∀ l w',
      create_api_entry cls user_id key instr lbl (Some 0%Z) w = Returned l w' →
      ∃ d o, free_tier (environ w) = Some d
             ∧ heap w' !! l = Some o
             ∧ token_limit_per_day o = VInt d
             ∧ total_tokens o = VInt d
             ∧ tokens_remaining o = VInt d
             ∧ (environ w !! "FREE_TOKENS" = None → d = 1000%Z).
Proof.
  split; [reflexivity|].
  intros l w' (n & i & key' & rows & Hc)%create_returned.
  exists n, (entry_row cls i user_id key' instr lbl n).
  pose proof (created_limit Hc) as Hn. simpl in Hn.
  split_and!; try done; [apply Hc|].
  intros He. unfold free_tier in Hn. rewrite He in Hn. congruence.
Qed.

Lemma zero_limit_is_default_witness :
  ∃ l w' o,
    create_api_entry cls0 1 "abc123" None (Some "mine") (Some 0%Z) boot
    = Returned l w'
    ∧ environ boot !! "FREE_TOKENS" = None
    ∧ heap w' !! l = Some o
    ∧ token_limit_per_day o = VInt 1000
    ∧ total_tokens o = VInt 1000
    ∧ tokens_remaining o = VInt 1000.
Proof.
  assert (create_api_entry cls0 1 "abc123" None (Some "mine") (Some 0%Z) boot
          = Returned 0 world1) as Hc by (vm_compute; reflexivity).
  destruct (zero_limit_is_default cls0 1 "abc123" None (Some "mine") boot)
    as [_ Hz].
  destruct (Hz 0 world1 Hc) as (d & o & _ & Ho & Hday & Htot & Hrem & Hd).
  rewrite (Hd eq_refl) in Hday, Htot, Hrem.
  exists 0, world1, o. split_and!; done.
Defined.

(** ** The daily limit *)

(** C10.  Every record [create_api_entry] returns has
    [token_limit_per_day] set, to an integer, and [total_tokens] and
    [tokens_remaining] equal to it; when [token_limit] is omitted that
    integer is the free-tier default. *)
Theorem created_has_daily_limit cls user_id key instr lbl token_limit w l w' :
  create_api_entry cls user_id key instr lbl token_limit w = Returned l w' →
  ∃ n o, heap w' !! l = Some o
         ∧ token_limit_per_day o = VInt n
         ∧ total_tokens o = VInt n
         ∧ tokens_remaining o = VInt n
         ∧ (token_limit = None → free_tier (environ w) = Some n).
Proof.
  intros (n & i & key' & rows & Hc)%create_returned.
  exists n, (entry_row cls i user_id key' instr lbl n).
  split_and!; try done; [apply Hc|].
  intros ->. apply Hc.
Qed.

Lemma created_has_daily_limit_witness :
  create_api_entry cls0 1 "abc123" None (Some "mine") None boot = Returned 0 world1
  ∧ ∃ n o, heap world1 !! 0 = Some o
           ∧ token_limit_per_day o = VInt n
           ∧ total_tokens o = VInt n
           ∧ tokens_remaining o = VInt n
           ∧ ((None : option Z) = None → free_tier (environ boot) = Some n).
Proof.
  split; [vm_compute; reflexivity|].
  apply (created_has_daily_limit cls0 1 "abc123" None (Some "mine") None
           boot 0 world1).
  vm_compute; reflexivity.
Defined.

(** * Further properties *)

(** ** The constructor *)

(** X1.  [__init__] with the keyword [token_limit_per_day]: the new
    instance has [total_tokens] and [tokens_remaining] equal to the daily
    limit, whatever was passed for them (also when the limit passed is
    [None]); the instance is allocated at the end of the heap and the
    instances that existed are as they were. *)
Theorem init_limit_overrides_counters kwargs v w l w' :
  kwargs !! "token_limit_per_day" = Some v →
  APIList_init kwargs w = Returned l w' →
  ∃ o, heap w' = heap w ++ [o] ∧ l = length (heap w)
       ∧ token_limit_per_day o = v
       ∧ total_tokens o = v
       ∧ tokens_remaining o = v
       ∧ db w' = db w ∧ trace w' = trace w.
Proof.
  intros Hk. unfold APIList_init, Base_init. rewrite Hk.
  case_bool_decide; [|discriminate]. unfold alloc. intros [= <- <-].
  eexists. split; [reflexivity|]. simpl.
  split_and!; try reflexivity; by simplify_map_eq.
Qed.

Lemma init_limit_overrides_counters_witness :
  (kwargs_with_limit !! "token_limit_per_day" = Some (VInt 100)
   ∧ APIList_init kwargs_with_limit boot
     = Returned 0 (world_of (APIList_init kwargs_with_limit boot)))
  ∧ ∃ o, heap (world_of (APIList_init kwargs_with_limit boot)) = heap boot ++ [o]
         ∧ 0 = length (heap boot)
         ∧ token_limit_per_day o = VInt 100
         ∧ total_tokens o = VInt 100
         ∧ tokens_remaining o = VInt 100
         ∧ db (world_of (APIList_init kwargs_with_limit boot)) = db boot
         ∧ trace (world_of (APIList_init kwargs_with_limit boot)) = trace boot.
Proof.
  split; [split; vm_compute; reflexivity|].
  apply (init_limit_overrides_counters kwargs_with_limit (VInt 100) boot 0
           (world_of (APIList_init kwargs_with_limit boot)));
    vm_compute; reflexivity.
Defined.

(** X2.  [__init__] without the keyword [token_limit_per_day]: nothing is
    synchronised; [total_tokens] and [tokens_remaining] are what was passed
    for them, unset when nothing was, and the daily limit is unset. *)
Theorem init_without_limit_keeps_counters kwargs w l w' :
  kwargs !! "token_limit_per_day" = None →
  APIList_init kwargs w = Returned l w' →
  ∃ o, heap w' = heap w ++ [o] ∧ l = length (heap w)
       ∧ token_limit_per_day o = VNone
       ∧ total_tokens o = default VNone (kwargs !! "total_tokens")
       ∧ tokens_remaining o = default VNone (kwargs !! "tokens_remaining").
Proof.
  intros Hk. unfold APIList_init, Base_init. rewrite Hk.
  case_bool_decide; [|discriminate]. unfold alloc. intros [= <- <-].
  eexists. split; [reflexivity|]. simpl. by rewrite Hk.
Qed.

Lemma init_without_limit_keeps_counters_witness :
  (kwargs_without_limit !! "token_limit_per_day" = None
   ∧ APIList_init kwargs_without_limit boot
     = Returned 0 (world_of (APIList_init kwargs_without_limit boot)))
  ∧ ∃ o, heap (world_of (APIList_init kwargs_without_limit boot)) = heap boot ++ [o]
         ∧ 0 = length (heap boot)
         ∧ token_limit_per_day o = VNone
         ∧ total_tokens o = default VNone (kwargs_without_limit !! "total_tokens")
         ∧ tokens_remaining o
           = default VNone (kwargs_without_limit !! "tokens_remaining").
Proof.
  split; [split; vm_compute; reflexivity|].
  apply (init_without_limit_keeps_counters kwargs_without_limit boot 0
           (world_of (APIList_init kwargs_without_limit boot)));
    vm_compute; reflexivity.
Defined.

(** ** The limit and the environment *)

(** X3.  With a [FREE_TOKENS] that [int] rejects, a call without
    [token_limit], or with [token_limit = 0], raises [ValueError] before
    anything else happens: no instance is allocated, the session is not
    called, the process is as it was. *)
Theorem create_malformed_free_tokens cls user_id key instr lbl token_limit s w :
  environ w !! "FREE_TOKENS" = Some s →
  py_int s = None →
  token_limit = None ∨ token_limit = Some 0%Z →
  create_api_entry cls user_id key instr lbl token_limit w = Raised ValueError w.
Proof.
  intros He Hs Htl. unfold create_api_entry, bind.
  rewrite py_or_free_tokens_eq.
  replace (resolved_limit token_limit (environ w)) with (@None Z); [done|].
  unfold resolved_limit, free_tier. rewrite He, Hs.
  by destruct Htl as [-> | ->].
Qed.

Lemma create_malformed_free_tokens_witness :
  (environ boot_malformed !! "FREE_TOKENS" = Some "plenty"
   ∧ py_int "plenty" = None
   ∧ ((Some 0%Z : option Z) = None ∨ Some 0%Z = Some 0%Z))
  ∧ create_api_entry cls0 1 "abc123" None (Some "mine") (Some 0%Z) boot_malformed
    = Raised ValueError boot_malformed.
Proof.
  split; [split_and!; [reflexivity|reflexivity|by right]|].
  apply (create_malformed_free_tokens cls0 1 "abc123" None (Some "mine")
           (Some 0%Z) "plenty" boot_malformed);
    [reflexivity|reflexivity|by right].
Defined.

(** X4.  A call with a [token_limit] that is not zero does not read the
    environment: in any other environment, malformed [FREE_TOKENS]
    included, it has the same outcome. *)
Theorem create_explicit_limit_ignores_environ cls user_id key instr lbl n e w :
  n ≠ 0%Z →
  create_api_entry cls user_id key instr lbl (Some n) (set_environ (λ _, e) w)
  = map_world (set_environ (λ _, e))
      (create_api_entry cls user_id key instr lbl (Some n) w).
Proof.
  intros Hn. rewrite !create_api_entry_eq. unfold resolved_limit.
  replace (n =? 0)%Z with false by (symmetry; by apply Z.eqb_neq).
  simpl.
  destruct (inactive (db w)); [done|].
  destruct (flush _ _ _ _) as [[[e' h1] s1]|[h1 s1]]; [done|].
  destruct (inactive s1); [done|].
  destruct (h1 !! _) as [o|]; [|done].
  by destruct (head _).
Qed.

Lemma create_explicit_limit_ignores_environ_witness :
  5000%Z ≠ 0%Z
  ∧ create_api_entry cls0 1 "abc123" None (Some "mine") (Some 5000%Z)
      (set_environ (λ _, environ boot_malformed) boot)
    = map_world (set_environ (λ _, environ boot_malformed))
        (create_api_entry cls0 1 "abc123" None (Some "mine") (Some 5000%Z) boot).
Proof.
  split; [done|].
  apply (create_explicit_limit_ignores_environ cls0 1 "abc123" None
           (Some "mine") 5000 (environ boot_malformed) boot).
  done.
Defined.

(** X5.  The column defaults of [total_tokens] and [tokens_remaining] never
    reach a record of [create_api_entry]: in a session with nothing
    pending, the outcome of a call is the same whatever these two defaults
    of the class are. *)
Theorem create_ignores_schema_defaults created used total remaining
    total' remaining' user_id key instr lbl token_limit w :
  new (db w) = [] →
  create_api_entry (mkClass created total used remaining)
    user_id key instr lbl token_limit w
  = create_api_entry (mkClass created total' used remaining')
      user_id key instr lbl token_limit w.
Proof.
  intros Hclean. rewrite !create_api_entry_eq.
  destruct (resolved_limit _ _) as [n|]; [|done].
  cbn zeta. rewrite Hclean. simpl. by rewrite list_lookup_middle.
Qed.

Lemma create_ignores_schema_defaults_witness :
  new (db boot) = []
  ∧ create_api_entry (mkClass 1700000000 (VInt 50000) 0 (VInt 50000))
      1 "abc123" None (Some "mine") None boot
    = create_api_entry (mkClass 1700000000 (VStr "2500") 0 (VStr "2500"))
        1 "abc123" None (Some "mine") None boot.
Proof.
  split; [reflexivity|].
  apply (create_ignores_schema_defaults 1700000000 0
           (VInt 50000) (VInt 50000) (VStr "2500") (VStr "2500")
           1 "abc123" None (Some "mine") None boot).
  reflexivity.
Defined.

(** ** Rejected rows *)

(** X6.  On a backend that enforces foreign keys, a call that is valid but
    for an owner who is not in [users] raises the foreign-key violation on
    [main_table_user_id] at the commit; the table is as it was, the
    rejected instance is no longer pending and the session is inactive. *)
Theorem create_unknown_owner_rejected cls user_id key key' instr l
    token_limit n w :
  new (db w) = [] → inactive (db w) = false → sequence_ahead (db w) →
  resolved_limit token_limit (environ w) = Some n →
  storable cls (db w) user_id n →
  stored_key (backend (db w)) key = Some key' →
  VStr key' ∉ api_key <$> api_list (db w) →
  enforce_fk (backend (db w)) = true →
  user_id ∉ users (db w) →
  create_api_entry cls user_id key instr (Some l) token_limit w
  = Raised (IntegrityError (ForeignKeyViolation "main_table_user_id"))
      (commit_raised (new_entry user_id key instr (Some l) (VInt n)) w)
  ∧ new (db (commit_raised (new_entry user_id key instr (Some l) (VInt n)) w))
    = []
  ∧ inactive
      (db (commit_raised (new_entry user_id key instr (Some l) (VInt n)) w))
    = true.
Proof.
  intros Hclean Hact Hseq Hn Hst Hk Hkey Hfk Huser.
  split; [|done].
  rewrite create_clean, Hn by done. cbn zeta.
  rewrite (row_of_entry_storable _ _ _ _ key') by done.
  rewrite violation_unknown_owner; try done.
  by apply sequence_ahead_fresh.
Qed.

Lemma create_unknown_owner_rejected_witness :
  (new (db boot) = [] ∧ inactive (db boot) = false ∧ sequence_ahead (db boot)
   ∧ resolved_limit None (environ boot) = Some 1000%Z
   ∧ storable cls0 (db boot) 2 1000
   ∧ stored_key (backend (db boot)) "abc123" = Some "abc123"
   ∧ (VStr "abc123" ∉ api_key <$> api_list (db boot))
   ∧ enforce_fk (backend (db boot)) = true
   ∧ (2%Z ∉ users (db boot)))
  ∧ create_api_entry cls0 2 "abc123" None (Some "mine") None boot
    = Raised (IntegrityError (ForeignKeyViolation "main_table_user_id"))
        (commit_raised (new_entry 2 "abc123" None (Some "mine") (VInt 1000)) boot)
  ∧ new (db (commit_raised
               (new_entry 2 "abc123" None (Some "mine") (VInt 1000)) boot))
    = []
  ∧ inactive
      (db (commit_raised
             (new_entry 2 "abc123" None (Some "mine") (VInt 1000)) boot))
    = true.
Proof.
  assert (VStr "abc123" ∉ api_key <$> api_list (db boot)) as Hkey
    by apply not_elem_of_nil.
  assert (2%Z ∉ users (db boot)) as Huser
    by (simpl; rewrite elem_of_singleton; lia).
  assert (storable cls0 (db boot) 2 1000) as Hst by (vm_compute; auto).
  split.
  - split_and!;
      [reflexivity|reflexivity|apply sequence_ahead_boot|reflexivity|exact Hst
      |reflexivity|exact Hkey|reflexivity|exact Huser].
  - apply (create_unknown_owner_rejected cls0 2 "abc123" "abc123" None
             "mine" None 1000 boot);
      [reflexivity|reflexivity|apply sequence_ahead_boot|reflexivity|exact Hst
      |reflexivity|exact Hkey|reflexivity|exact Huser].
Defined.

(** X7.  A call with an [api_key] that column [api_key] refuses (on a
    backend that enforces the length of [String(64)]: more than 64
    characters, not counting spaces at the end) raises [DataError] at the
    commit, whatever its label and limit, when primary key and owner are
    in range; the table is as it was.  A key of 64 characters and a space
    is not refused: it is stored without the space. *)
Theorem create_long_key_rejected cls user_id key instr lbl token_limit n w :
  new (db w) = [] → inactive (db w) = false →
  resolved_limit token_limit (environ w) = Some n →
  in_range (backend (db w)) (next_id (db w)) = true →
  in_range (backend (db w)) user_id = true →
  stored_key (backend (db w)) key = None →
  create_api_entry cls user_id key instr lbl token_limit w
  = Raised (DataError "api_key")
      (commit_raised (new_entry user_id key instr lbl (VInt n)) w)
  ∧ api_list
      (db (commit_raised (new_entry user_id key instr lbl (VInt n)) w))
    = take (durable (db w)) (api_list (db w)).
Proof.
  intros Hclean Hact Hn Hi Hu Hk. split; [|done].
  rewrite create_clean, Hn by done. cbn zeta.
  rewrite row_of_entry. cbn zeta. by rewrite Hi, Hu, Hk.
Qed.

Lemma create_long_key_rejected_witness :
  (new (db boot) = [] ∧ inactive (db boot) = false
   ∧ resolved_limit None (environ boot) = Some 1000%Z
   ∧ in_range (backend (db boot)) (next_id (db boot)) = true
   ∧ in_range (backend (db boot)) 1 = true
   ∧ stored_key (backend (db boot)) long_key = None)
  ∧ create_api_entry cls0 1 long_key None (Some "mine") None boot
    = Raised (DataError "api_key")
        (commit_raised (new_entry 1 long_key None (Some "mine") (VInt 1000)) boot)
  ∧ api_list
      (db (commit_raised (new_entry 1 long_key None (Some "mine") (VInt 1000))
             boot))
    = take (durable (db boot)) (api_list (db boot)).
Proof.
  assert (stored_key (backend (db boot)) long_key = None) as Hk
    by (vm_compute; reflexivity).
  split; [split_and!; first [exact Hk|reflexivity]|].
  apply (create_long_key_rejected cls0 1 long_key None (Some "mine") None
           1000 boot); first [exact Hk|reflexivity].
Defined.

(** The key of 64 characters and a space: the call returns, the key is
    stored without the space, and the lookup finds the record under the
    stored key and not under the key that was passed. *)
Example create_padded_key :
  ∃ w' r wq wq',
    create_api_entry cls0 1 padded_key None (Some "mine") None boot
    = Returned 0 w'
    ∧ heap w' !! 0 = Some r
    ∧ stored_key strict padded_key = Some (String.substring 0 64 padded_key)
    ∧ api_key r = VStr (String.substring 0 64 padded_key)
    ∧ get_by_api_key cls0 (String.substring 0 64 padded_key) w' = Returned (Some r) wq
    ∧ get_by_api_key cls0 padded_key w' = Returned None wq'.
Proof.
  eexists _, _, _, _.
  split; [vm_compute; reflexivity|].
  split; [reflexivity|].
  split; [vm_compute; reflexivity|].
  split; [vm_compute; reflexivity|].
  split; vm_compute; reflexivity.
Qed.

(** ** Create and lookup *)

Lemma head_filter_snoc_other key (l : list APIList) r :
  api_key r ≠ VStr key →
  head (filter (λ r, api_key r = VStr key) (l ++ [r]))
  = head (filter (λ r, api_key r = VStr key) l).
Proof.
  intros Hne. rewrite filter_app, (filter_cons_False _ _ []) by done.
  by rewrite filter_nil, app_nil_r.
Qed.

(** X8.  A call that returns, in a session with nothing pending, appends
    one row to the table and changes no answer of [get_by_api_key] for any
    key other than the one it has stored. *)
Theorem create_keeps_other_lookups cls user_id key instr lbl token_limit w l w'
    stored other :
  new (db w) = [] →
  create_api_entry cls user_id key instr lbl token_limit w = Returned l w' →
  stored_key (backend (db w)) key = Some stored →
  other ≠ stored →
  (∃ r, api_list (db w') = api_list (db w) ++ [r])
  ∧ ∃ res wq wq',
      get_by_api_key cls other w = Returned res wq
      ∧ get_by_api_key cls other w' = Returned res wq'.
Proof.
  intros Hclean (n & i & key' & rows & Hc)%create_returned Hk Hne.
  destruct (created_clean Hc Hclean) as [-> ->].
  pose proof (created_rows Hc) as Hrows. rewrite app_nil_r in Hrows.
  pose proof (created_key Hc) as Hk'. rewrite Hk in Hk'. injection Hk' as <-.
  destruct (created_active Hc) as [Hact Hact'].
  split; [by eexists|].
  eexists _, _, _. split; [by apply get_by_api_key_eq|].
  rewrite get_by_api_key_eq, Hrows by (done || apply Hc).
  by rewrite head_filter_snoc_other by (simpl; congruence).
Qed.

Lemma create_keeps_other_lookups_witness :
  (new (db world2) = []
   ∧ create_api_entry cls0 1 "def456" (Some "be brief") (Some "other")
       (Some 5000%Z) world2 = Returned 1 world3
   ∧ stored_key (backend (db world2)) "def456" = Some "def456"
   ∧ "abc123" ≠ "def456")
  ∧ (∃ r, api_list (db world3) = api_list (db world2) ++ [r])
  ∧ ∃ res wq wq',
      get_by_api_key cls0 "abc123" world2 = Returned res wq
      ∧ get_by_api_key cls0 "abc123" world3 = Returned res wq'.
Proof.
  split; [split_and!; [reflexivity|vm_compute; reflexivity
                      |vm_compute; reflexivity|done]|].
  apply (create_keeps_other_lookups cls0 1 "def456" (Some "be brief")
           (Some "other") (Some 5000%Z) world2 1 world3 "def456" "abc123");
    [reflexivity|vm_compute; reflexivity|vm_compute; reflexivity|done].
Defined.

(** X9.  [create_api_entry] returns only for a key that [get_by_api_key]
    did not find before the call: the key as column [api_key] stores it,
    which is the key itself when it has at most 64 characters. *)
Theorem create_only_on_missing_key cls user_id key instr lbl token_limit w l w' :
  create_api_entry cls user_id key instr lbl token_limit w = Returned l w' →
  ∃ stored wq,
    stored_key (backend (db w)) key = Some stored
    ∧ (String.length key ≤ 64 → stored = key)
    ∧ get_by_api_key cls stored w = Returned None wq.
Proof.
  intros (n & i & key' & rows & Hc)%create_returned.
  destruct (created_pending Hc) as (h0 & s0 & Hfl & Hrows).
  destruct (get_by_api_key_flushed cls key' w h0 s0
              (proj1 (created_active Hc)) Hfl) as [wq Hq].
  exists key', wq. split_and!; [apply Hc| |].
  - intros Hlen. pose proof (created_key Hc) as Hk.
    rewrite stored_key_short in Hk by done. congruence.
  - rewrite Hq. f_equal.
    apply head_filter_None. intros r Hr Hk.
    apply (created_key_fresh Hc). rewrite <- Hk, <- Hrows.
    by apply list_elem_of_fmap_2.
Qed.

Lemma create_only_on_missing_key_witness :
  create_api_entry cls0 1 "abc123" None (Some "mine") None boot = Returned 0 world1
  ∧ ∃ stored wq,
      stored_key (backend (db boot)) "abc123" = Some stored
      ∧ (String.length "abc123" ≤ 64 → stored = "abc123")
      ∧ get_by_api_key cls0 stored boot = Returned None wq.
Proof.
  split; [vm_compute; reflexivity|].
  apply (create_only_on_missing_key cls0 1 "abc123" None (Some "mine") None
           boot 0 world1).
  vm_compute; reflexivity.
Defined.

(** ** Raising calls *)

(** X10.  A call that raises has stored nothing: on a session whose rows
    are all committed, table and users are as before.  Either the limit
    did not resolve, the exception is [ValueError] and the process is
    untouched; or the new instance is allocated, [add] and [commit] were
    called and [refresh] was not, and the session is inactive afterwards;
    if it was active before, the commit has raised in its flush, the
    transaction is rolled back and nothing is pending any more. *)
Theorem create_raise_stores_nothing cls user_id key instr lbl token_limit w e w' :
  durable (db w) = length (api_list (db w)) →
  create_api_entry cls user_id key instr lbl token_limit w = Raised e w' →
  api_list (db w') = api_list (db w)
  ∧ users (db w') = users (db w)
  ∧ durable (db w') = durable (db w)
  ∧ match resolved_limit token_limit (environ w) with
    | None => e = ValueError ∧ w' = w
    | Some n =>
        trace w' = trace w ++ [CallAdd (length (heap w)); CallCommit]
        ∧ length (heap w') = S (length (heap w))
        ∧ inactive (db w') = true
        ∧ (inactive (db w) = true → e = PendingRollbackError)
        ∧ (inactive (db w) = false → new (db w') = [])
    end.
Proof.
  intros Hdur Hc.
  pose proof (create_raised _ _ _ _ _ _ _ _ _ Hc) as Hf.
  split_and!; [by apply Hf|apply Hf..|].
  pose proof (failed_how Hf) as Hhow.
  destruct (resolved_limit token_limit (environ w)) as [n|]; [|done].
  destruct Hhow as (Ht & Hl & Hi & Hcase).
  split_and!; [done..| |]; intros Hact; rewrite Hact in Hcase;
    [apply Hcase|done].
Qed.

Lemma create_raise_stores_nothing_witness :
  (durable (db boot) = length (api_list (db boot))
   ∧ create_api_entry cls0 1 "abc123" None None None boot
     = Raised (IntegrityError (NotNullViolation "label")) world_failed)
  ∧ api_list (db world_failed) = api_list (db boot)
  ∧ users (db world_failed) = users (db boot)
  ∧ durable (db world_failed) = durable (db boot)
  ∧ match resolved_limit None (environ boot) with
    | None =>
        IntegrityError (NotNullViolation "label") = ValueError
        ∧ world_failed = boot
    | Some n =>
        trace world_failed = trace boot ++ [CallAdd (length (heap boot)); CallCommit]
        ∧ length (heap world_failed) = S (length (heap boot))
        ∧ inactive (db world_failed) = true
        ∧ (inactive (db boot) = true
           → IntegrityError (NotNullViolation "label") = PendingRollbackError)
        ∧ (inactive (db boot) = false → new (db world_failed) = [])
    end.
Proof.
  split; [split; vm_compute; reflexivity|].
  apply (create_raise_stores_nothing cls0 1 "abc123" None None None boot
           (IntegrityError (NotNullViolation "label")) world_failed);
    vm_compute; reflexivity.
Defined.

(** ** Primary keys *)

(** X11.  On a regular store (nothing pending, the sequence ahead of the
    table) a returning call gives its record the next value of the
    sequence, which no row of the table has; the sequence advances by one
    and the store is regular again, so that calls can follow one another. *)
Theorem create_assigns_next_id cls user_id key instr lbl token_limit w l w' :
  new (db w) = [] → sequence_ahead (db w) →
  create_api_entry cls user_id key instr lbl token_limit w = Returned l w' →
  ∃ r, heap w' !! l = Some r
       ∧ id r = VInt (next_id (db w))
       ∧ (∀ r0, r0 ∈ api_list (db w) → id r0 ≠ id r)
       ∧ api_list (db w') = api_list (db w) ++ [r]
       ∧ next_id (db w') = (next_id (db w) + 1)%Z
       ∧ new (db w') = []
       ∧ sequence_ahead (db w').
Proof.
  intros Hclean Hseq Hcr.
  pose proof (create_preserves_sequence _ _ _ _ _ _ _ _ _ Hclean Hseq Hcr) as Hseq'.
  apply create_returned in Hcr as (n & i & key' & rows & Hc).
  destruct (created_clean Hc Hclean) as [-> ->].
  pose proof (created_rows Hc) as Hrows. rewrite app_nil_r in Hrows.
  eexists. split_and!;
    [exact (created_obj Hc)|reflexivity| |exact Hrows
    |exact (created_next_id Hc)|exact (created_new Hc)|exact Hseq'].
  intros r0 Hr0 Hid. apply (sequence_ahead_fresh _ Hseq).
  simpl in Hid. rewrite <- Hid. by apply list_elem_of_fmap_2.
Qed.

Lemma create_assigns_next_id_witness :
  (new (db boot) = [] ∧ sequence_ahead (db boot)
   ∧ create_api_entry cls0 1 "abc123" None (Some "mine") None boot
     = Returned 0 world1)
  ∧ ∃ r, heap world1 !! 0 = Some r
         ∧ id r = VInt (next_id (db boot))
         ∧ (∀ r0, r0 ∈ api_list (db boot) → id r0 ≠ id r)
         ∧ api_list (db world1) = api_list (db boot) ++ [r]
         ∧ next_id (db world1) = (next_id (db boot) + 1)%Z
         ∧ new (db world1) = []
         ∧ sequence_ahead (db world1).
Proof.
  split; [split_and!; [reflexivity|apply sequence_ahead_boot
                      |vm_compute; reflexivity]|].
  apply (create_assigns_next_id cls0 1 "abc123" None (Some "mine") None
           boot 0 world1);
    [reflexivity|apply sequence_ahead_boot|vm_compute; reflexivity].
Defined.

(** ** The import *)

(** X12.  At the import a [FREE_TOKENS] of the process environment wins
    over the one of the [.env] file, and the [.env] value is used, and put
    into the environment, when the process has none.  The column defaults
    of [total_tokens] and [tokens_remaining] keep that value as the string
    it is, while the creation path, reading the same variable afterwards,
    converts it with [int]. *)
Theorem import_free_tokens_precedence dotenv w0 cls w1 s :
  import_api_list dotenv w0 = Returned cls w1 →
  environ w0 !! "FREE_TOKENS" = Some s
  ∨ (environ w0 !! "FREE_TOKENS" = None ∧ dotenv !! "FREE_TOKENS" = Some s) →
  environ w1 !! "FREE_TOKENS" = Some s
  ∧ total_tokens_default cls = VStr s
  ∧ tokens_remaining_default cls = VStr s
  ∧ free_tokens w1 = match py_int s with
                     | Some n => Returned (VInt n) w1
                     | None => Raised ValueError w1
                     end.
Proof.
  intros Himp Hs.
  assert ((environ w0 ∪ dotenv) !! "FREE_TOKENS" = Some s) as Hu.
  { destruct Hs as [He|[He Hd]].
    - by apply lookup_union_Some_l.
    - rewrite lookup_union_r; done. }
  pose proof (import_free_tokens_set _ _ _ _ _ Hu Himp) as [Ht Hr].
  rewrite import_api_list_eq in Himp. injection Himp as _ <-.
  split_and!; [exact Hu|exact Ht|exact Hr|].
  by apply free_tokens_set.
Qed.

Lemma import_free_tokens_precedence_witness :
  (import_api_list dotenv_2500 boot
   = Returned (mkClass 1700000000 (VStr "2500") 0 (VStr "2500"))
       (set_environ (λ e, e ∪ dotenv_2500) boot)
   ∧ (environ boot !! "FREE_TOKENS" = Some "2500"
      ∨ (environ boot !! "FREE_TOKENS" = None
         ∧ dotenv_2500 !! "FREE_TOKENS" = Some "2500")))
  ∧ environ (set_environ (λ e, e ∪ dotenv_2500) boot) !! "FREE_TOKENS"
    = Some "2500"
  ∧ total_tokens_default (mkClass 1700000000 (VStr "2500") 0 (VStr "2500"))
    = VStr "2500"
  ∧ tokens_remaining_default (mkClass 1700000000 (VStr "2500") 0 (VStr "2500"))
    = VStr "2500"
  ∧ free_tokens (set_environ (λ e, e ∪ dotenv_2500) boot)
    = match py_int "2500" with
      | Some n => Returned (VInt n) (set_environ (λ e, e ∪ dotenv_2500) boot)
      | None => Raised ValueError (set_environ (λ e, e ∪ dotenv_2500) boot)
      end.
Proof.
  split; [split; [vm_compute; reflexivity|right; split; reflexivity]|].
  apply (import_free_tokens_precedence dotenv_2500 boot
           (mkClass 1700000000 (VStr "2500") 0 (VStr "2500"))
           (set_environ (λ e, e ∪ dotenv_2500) boot) "2500").
  - vm_compute; reflexivity.
  - right. split; reflexivity.
Defined.

(** The string default of the class is stored as the integer it denotes:
    an instance constructed without [token_limit_per_day], added and
    committed under the class of the import above, has the integer 2500 in
    [total_tokens] and [tokens_remaining]. *)
Example string_default_stored_as_integer :
  ∃ w' r,
    (let! l := APIList_init
                 (<["main_table_user_id" := VInt 1]>
                    (<["label" := VStr "mine"]> {["api_key" := VStr "abc123"]})) in
     db_add l ;; db_commit (mkClass 1700000000 (VStr "2500") 0 (VStr "2500")))
      boot
    = Returned () w'
    ∧ api_list (db w') = [r]
    ∧ total_tokens r = VInt 2500 ∧ tokens_remaining r = VInt 2500.
Proof. eexists _, _. split; [vm_compute; reflexivity|done]. Qed.

(** ** Valid calls *)

(** X13.  The valid calls return and are found: on a regular store (the
    session active, nothing pending, the sequence ahead of the table), a
    call with a label, a free key of at most 64 characters, an existing
    owner and a limit that resolves, its integers in the range of the
    columns, returns a record, and [get_by_api_key] with that key then
    returns this record. *)
Theorem valid_create_is_found cls user_id key instr l token_limit n w :
  new (db w) = [] → inactive (db w) = false → sequence_ahead (db w) →
  resolved_limit token_limit (environ w) = Some n →
  storable cls (db w) user_id n →
  String.length key ≤ 64 →
  VStr key ∉ api_key <$> api_list (db w) →
  user_id ∈ users (db w) →
  ∃ w' r wq,
    create_api_entry cls user_id key instr (Some l) token_limit w
    = Returned (length (heap w)) w'
    ∧ heap w' !! length (heap w) = Some r
    ∧ get_by_api_key cls key w' = Returned (Some r) wq
    ∧ api_key r = VStr key ∧ label r = VStr l
    ∧ main_table_user_id r = VInt user_id.
Proof.
  intros Hclean Hact Hseq Hn Hst Hlen Hkey Huser.
  pose proof (create_clean cls user_id key instr (Some l) token_limit w
                Hclean Hact) as Heq.
  rewrite Hn in Heq. cbn zeta in Heq.
  rewrite (row_of_entry_storable _ _ _ _ key) in Heq
    by (done || by apply stored_key_short).
  rewrite violation_valid in Heq
    by (done || by apply sequence_ahead_fresh).
  set (r := entry_row cls (next_id (db w)) user_id key instr (Some l) n) in *.
  exists (committed r w), r, (log_call CallQuery (committed r w)).
  split_and!; [exact Heq| | |reflexivity..].
  - simpl. by apply list_lookup_middle.
  - rewrite get_by_api_key_eq by reflexivity. f_equal. simpl.
    apply head_filter_app_fresh; [|reflexivity].
    intros y Hy Hk. apply Hkey. rewrite <- Hk. by apply list_elem_of_fmap_2.
Qed.

Lemma valid_create_is_found_witness :
  (new (db boot) = [] ∧ inactive (db boot) = false ∧ sequence_ahead (db boot)
   ∧ resolved_limit None (environ boot) = Some 1000%Z
   ∧ storable cls0 (db boot) 1 1000
   ∧ String.length "abc123" ≤ 64
   ∧ (VStr "abc123" ∉ api_key <$> api_list (db boot))
   ∧ 1%Z ∈ users (db boot))
  ∧ ∃ w' r wq,
      create_api_entry cls0 1 "abc123" None (Some "mine") None boot
      = Returned (length (heap boot)) w'
      ∧ heap w' !! length (heap boot) = Some r
      ∧ get_by_api_key cls0 "abc123" w' = Returned (Some r) wq
      ∧ api_key r = VStr "abc123" ∧ label r = VStr "mine"
      ∧ main_table_user_id r = VInt 1.
Proof.
  assert (VStr "abc123" ∉ api_key <$> api_list (db boot)) as Hkey
    by apply not_elem_of_nil.
  assert (1%Z ∈ users (db boot)) as Huser by (simpl; by apply elem_of_singleton).
  assert (String.length "abc123" ≤ 64) as Hlen by (simpl; lia).
  assert (storable cls0 (db boot) 1 1000) as Hst by (vm_compute; auto).
  split.
  - split_and!; [reflexivity|reflexivity|apply sequence_ahead_boot
                |reflexivity|exact Hst|exact Hlen|exact Hkey|exact Huser].
  - apply (valid_create_is_found cls0 1 "abc123" None "mine" None 1000 boot);
      [reflexivity|reflexivity|apply sequence_ahead_boot
      |reflexivity|exact Hst|exact Hlen|exact Hkey|exact Huser].
Defined.

(** A limit beyond the INTEGER columns is no valid call: with
    [token_limit] 2147483648 the commit raises [DataError]. *)
Example create_limit_out_of_range :
  ∃ w', create_api_entry cls0 1 "abc123" None (Some "mine")
          (Some 2147483648%Z) boot
        = Raised (DataError "total_tokens") w'
        ∧ api_list (db w') = [] ∧ new (db w') = [] ∧ inactive (db w') = true.
Proof. eexists. split; [vm_compute; reflexivity|done]. Qed.

(** ** The invariant *)

(** X14.  Uniqueness of [api_key] is an invariant of the two methods:
    whatever the arguments, whatever is pending in the session and whether
    the call returns or raises, the keys of the committed table are unique
    after a call if they were before. *)
Theorem every_call_keeps_keys_unique cls w :
  unique_api_keys (db w) →
  (∀ user_id key instr lbl token_limit,
     unique_api_keys
       (db (world_of (create_api_entry cls user_id key instr lbl token_limit w))))
  ∧ (∀ key, unique_api_keys (db (world_of (get_by_api_key cls key w)))).
Proof.
  intros Hu. split.
  - intros. by apply create_preserves_unique.
  - intros key. by apply get_by_api_key_preserves_unique.
Qed.

Lemma every_call_keeps_keys_unique_witness :
  unique_api_keys (db world1)
  ∧ (∀ user_id key instr lbl token_limit,
       unique_api_keys
         (db (world_of (create_api_entry cls0 user_id key instr lbl token_limit
                          world1))))
  ∧ (∀ key, unique_api_keys (db (world_of (get_by_api_key cls0 key world1)))).
Proof.
  assert (unique_api_keys (db world1)) as Hu
    by (vm_compute; apply NoDup_singleton).
  split; [exact Hu|].
  apply (every_call_keeps_keys_unique cls0 world1 Hu).
Defined.

(** ** The outcome in closed form *)



(** ** The exceptions *)



(** The session that a failed commit has left refuses the next call. *)
Example create_on_inactive_session :
  ∃ w', create_api_entry cls0 1 "def456" None (Some "mine") None world_failed
        = Raised PendingRollbackError w'
        ∧ api_list (db w') = [].
Proof. eexists. split; [vm_compute; reflexivity|done]. Qed.

(** ** Created records are found *)

(** X18.  When [create_api_entry] has returned, [get_by_api_key] with the
    key as column [api_key] has stored it, which is the key passed when
    that has at most 64 characters, returns a record: the one just created,
    whose owner, label and instructions are the values passed to
    [create_api_entry]. *)
Theorem created_record_is_found cls user_id key instr lbl token_limit w l w' :
  create_api_entry cls user_id key instr lbl token_limit w = Returned l w' →
  ∃ stored r wq,
    stored_key (backend (db w)) key = Some stored
    ∧ (String.length key ≤ 64 → stored = key)
    ∧ get_by_api_key cls stored w' = Returned (Some r) wq
    ∧ heap w' !! l = Some r
    ∧ api_key r = VStr stored
    ∧ main_table_user_id r = VInt user_id
    ∧ label r = opt_str lbl
    ∧ instructions r = opt_str instr.
Proof.
  intros (n & i & key' & rows & Hc)%create_returned.
  exists key', (entry_row cls i user_id key' instr lbl n),
         (log_call CallQuery w').
  split_and!; [apply Hc| | |apply Hc|reflexivity..].
  - intros Hlen. pose proof (created_key Hc) as Hk.
    rewrite stored_key_short in Hk by done. congruence.
  - rewrite get_by_api_key_eq, (created_rows Hc) by apply Hc.
    f_equal. apply head_filter_app_fresh; [|done].
    intros y Hy Hkey. apply (created_key_fresh Hc).
    rewrite <- Hkey. by apply list_elem_of_fmap_2.
Qed.

Lemma created_record_is_found_witness :
  create_api_entry cls0 1 "def456" (Some "be brief") (Some "other")
    (Some 5000%Z) world2 = Returned 1 world3
  ∧ ∃ stored r wq,
      stored_key (backend (db world2)) "def456" = Some stored
      ∧ (String.length "def456" ≤ 64 → stored = "def456")
      ∧ get_by_api_key cls0 stored world3 = Returned (Some r) wq
      ∧ heap world3 !! 1 = Some r
      ∧ api_key r = VStr stored
      ∧ main_table_user_id r = VInt 1
      ∧ label r = opt_str (Some "other")
      ∧ instructions r = opt_str (Some "be brief").
Proof.
  split; [vm_compute; reflexivity|].
  apply (created_record_is_found cls0 1 "def456" (Some "be brief")
           (Some "other") (Some 5000%Z) world2 1 world3).
  vm_compute; reflexivity.
Defined.

(** ** Two keys *)

(** X17.  Two calls that return one after the other have different keys,
    also as stored; their records have different primary keys, and after
    the second call [get_by_api_key] finds each record under its stored
    key. *)
Theorem two_creates_both_found cls
    user1 key1 instr1 lbl1 limit1 w l1 w1
    user2 key2 instr2 lbl2 limit2 l2 w2 :
  create_api_entry cls user1 key1 instr1 lbl1 limit1 w = Returned l1 w1 →
  create_api_entry cls user2 key2 instr2 lbl2 limit2 w1 = Returned l2 w2 →
  key1 ≠ key2
  ∧ ∃ stored1 stored2 r1 r2 wq1 wq2,
      stored_key (backend (db w)) key1 = Some stored1
      ∧ stored_key (backend (db w)) key2 = Some stored2
      ∧ stored1 ≠ stored2
      ∧ heap w1 !! l1 = Some r1 ∧ heap w2 !! l2 = Some r2
      ∧ id r1 ≠ id r2
      ∧ get_by_api_key cls stored1 w2 = Returned (Some r1) wq1
      ∧ get_by_api_key cls stored2 w2 = Returned (Some r2) wq2.
Proof.
  intros (n1 & i1 & k1 & rows1 & Hc1)%create_returned
         (n2 & i2 & k2 & rows2 & Hc2)%create_returned.
  destruct (created_clean Hc2 (created_new Hc1)) as [-> Hi2].
  pose proof (created_rows Hc1) as Hrows1.
  pose proof (created_rows Hc2) as Hrows2. rewrite app_nil_r in Hrows2.
  pose proof (created_key_fresh Hc2) as Hfresh2. rewrite app_nil_r in Hfresh2.
  pose proof (created_id_fresh Hc2) as Hid2. rewrite app_nil_r in Hid2.
  pose proof (created_key Hc1) as Hk1.
  pose proof (created_key Hc2) as Hk2. rewrite (created_backend Hc1) in Hk2.
  assert (k1 ≠ k2) as Hne.
  { intros <-. apply Hfresh2. rewrite Hrows1, fmap_app.
    apply elem_of_app. right. left. }
  split; [intros <-; congruence|].
  exists k1, k2, (entry_row cls i1 user1 k1 instr1 lbl1 n1),
         (entry_row cls i2 user2 k2 instr2 lbl2 n2),
         (log_call CallQuery w2), (log_call CallQuery w2).
  split_and!; [exact Hk1|exact Hk2|exact Hne
              |exact (created_obj Hc1)|exact (created_obj Hc2)| | |].
  - simpl. intros Hid. apply Hid2. rewrite <- Hid, Hrows1, fmap_app.
    apply elem_of_app. right. left.
  - rewrite get_by_api_key_eq, Hrows2, Hrows1 by apply Hc2. f_equal.
    rewrite head_filter_snoc_other by (simpl; congruence).
    apply head_filter_app_fresh; [|reflexivity].
    intros y Hy Hk. apply (created_key_fresh Hc1).
    rewrite <- Hk. by apply list_elem_of_fmap_2.
  - rewrite get_by_api_key_eq, Hrows2 by apply Hc2. f_equal.
    apply head_filter_app_fresh; [|reflexivity].
    intros y Hy Hk. apply Hfresh2.
    rewrite <- Hk. by apply list_elem_of_fmap_2.
Qed.

Lemma two_creates_both_found_witness :
  (create_api_entry cls0 1 "abc123" None (Some "mine") None boot
   = Returned 0 world1
   ∧ create_api_entry cls0 1 "def456" (Some "be brief") (Some "other")
       (Some 5000%Z) world1
     = Returned 1
         (world_of (create_api_entry cls0 1 "def456" (Some "be brief")
                      (Some "other") (Some 5000%Z) world1)))
  ∧ "abc123" ≠ "def456"
  ∧ ∃ stored1 stored2 r1 r2 wq1 wq2,
      stored_key (backend (db boot)) "abc123" = Some stored1
      ∧ stored_key (backend (db boot)) "def456" = Some stored2
      ∧ stored1 ≠ stored2
      ∧ heap world1 !! 0 = Some r1
      ∧ heap (world_of (create_api_entry cls0 1 "def456" (Some "be brief")
                          (Some "other") (Some 5000%Z) world1)) !! 1 = Some r2
      ∧ id r1 ≠ id r2
      ∧ get_by_api_key cls0 stored1
          (world_of (create_api_entry cls0 1 "def456" (Some "be brief")
                       (Some "other") (Some 5000%Z) world1))
        = Returned (Some r1) wq1
      ∧ get_by_api_key cls0 stored2
          (world_of (create_api_entry cls0 1 "def456" (Some "be brief")
                       (Some "other") (Some 5000%Z) world1))
        = Returned (Some r2) wq2.
Proof.
  split; [split; vm_compute; reflexivity|].
  apply (two_creates_both_found cls0
           1 "abc123" None (Some "mine") None boot 0 world1
           1 "def456" (Some "be brief") (Some "other") (Some 5000%Z) 1
           (world_of (create_api_entry cls0 1 "def456" (Some "be brief")
                        (Some "other") (Some 5000%Z) world1)));
    vm_compute; reflexivity.
Defined.
